(** * MindEase AI: a shallow embedding of [app.py]

    The application is a Streamlit script: every user interaction re-runs the
    script top to bottom against a per-session store ([st.session_state]).
    The development below embeds

    - the Python string operations the script relies on ([strip],
      [startswith], [in], [split], [replace]), over sequences of Unicode
      code points;
    - the helper functions [check_crisis], [analyze_journal_entry] and
      [get_ai_response_and_emotion];
    - the handlers [render_chat_tab], [render_journal_tab] and the two
      frequency tables of [render_insights_tab], as state-passing functions
      over the session store and an explicit record of the outside world
      (calls to the hosted model, chat objects created, widgets drawn).

    Library code that the script calls but does not define ([str.lower],
    [json.loads], [DataFrame.sort_values], the hosted model) is taken as a
    section variable; what a proof assumes of it is a hypothesis of that
    proof. *)

From Stdlib Require Import String Ascii DecimalString.
From Stdlib Require Import List NArith Arith Bool Lia.
From Stdlib Require Import Permutation Sorted Orders Mergesort.
From Equations Require Import Equations.
Import ListNotations.

Set Warnings "-register-all".

(* ===================================================================== *)
(** * Python strings *)
(* ===================================================================== *)

Module PyStr.

(** A Python [str] is a sequence of Unicode code points. *)
Definition str : Type := list N.

(** An ASCII literal of the source, as code points. *)
Definition lit (s : string) : str :=
  map N_of_ascii (list_ascii_of_string s).

(** [a == b] on strings. *)
Fixpoint eqb (a b : str) : bool :=
  match a, b with
  | [], [] => true
  | x :: a', y :: b' => N.eqb x y && eqb a' b'
  | _, _ => false
  end.

(** Line feed (the source writes it as a backslash escape) and the double
    quote. *)
Definition LF : str := [10%N].
Definition DQUOTE : N := 34%N.

(** [ch.isspace()]: the code points Python treats as whitespace. *)
Definition WHITESPACE : list N :=
  [9; 10; 11; 12; 13; 28; 29; 30; 31; 32; 133; 160; 5760;
   8192; 8193; 8194; 8195; 8196; 8197; 8198; 8199; 8200; 8201; 8202;
   8232; 8233; 8239; 8287; 12288]%N.

Definition isspace (c : N) : bool := existsb (N.eqb c) WHITESPACE.

(** [s.lstrip()], [s.rstrip()] and [s.strip()] without argument. *)
Fixpoint lstrip (s : str) : str :=
  match s with
  | [] => []
  | c :: t => if isspace c then lstrip t else s
  end.

Definition rstrip (s : str) : str := rev (lstrip (rev s)).

Definition strip (s : str) : str := rstrip (lstrip s).

(** The remainder of [s] after the prefix [p], when [s] starts with [p]. *)
Fixpoint strip_prefix (p s : str) : option str :=
  match p, s with
  | [], _ => Some s
  | _ :: _, [] => None
  | a :: p', b :: s' => if N.eqb a b then strip_prefix p' s' else None
  end.

(** [s.startswith(p)]. *)
Definition startswith (p s : str) : bool :=
  match strip_prefix p s with Some _ => true | None => false end.

(** [k in s]: [k] occurs in [s] as a contiguous substring. *)
Fixpoint contains (k s : str) : bool :=
  startswith k s ||
  match s with
  | [] => false
  | _ :: t => contains k t
  end.

(** [s.split(sep, 1)] for a non-empty [sep]: cut at the first occurrence of
    [sep], or return the whole string as the only part. *)
Fixpoint split_first (sep s : str) : option (str * str) :=
  match strip_prefix sep s with
  | Some rest => Some ([], rest)
  | None =>
      match s with
      | [] => None
      | c :: t =>
          match split_first sep t with
          | Some (before, after) => Some (c :: before, after)
          | None => None
          end
      end
  end.

Definition split1 (sep s : str) : list str :=
  match split_first sep s with
  | Some (before, after) => [before; after]
  | None => [s]
  end.

(** Case analysis that keeps the equation, for the termination proof of
    [replace_from]. *)
Definition inspect {A : Type} (x : A) : {y : A | x = y} := exist _ x eq_refl.

(** [s.replace(old, new)] for a pattern [o :: old'] (non-empty): scan from
    the left, and at every match emit [new] and resume after the match. *)
Equations? replace_from (o : N) (old' new s : str) : str by wf (length s) lt :=
  replace_from o old' new [] := [];
  replace_from o old' new (c :: t) with inspect (strip_prefix (o :: old') (c :: t)) := {
    | exist _ (Some rest) e := new ++ replace_from o old' new rest;
    | exist _ None e := c :: replace_from o old' new t }.
Proof.
  change (strip_prefix (o :: old') (c :: t) = Some rest) in e.
  assert (L : forall p s r,
             strip_prefix p s = Some r -> length s = length p + length r).
  { induction p as [|a p IH]; intros s r H; simpl in H.
    - inversion H; reflexivity.
    - destruct s as [|b s]; [discriminate|].
      destruct (N.eqb a b); [|discriminate].
      simpl. rewrite (IH _ _ H). reflexivity. }
  apply L in e. simpl in e |- *. lia.
Qed.

(** [s.replace(old, new)]; for the empty pattern Python inserts [new]
    before every character and at the end. *)
Definition replace (old new s : str) : str :=
  match old with
  | [] => new ++ flat_map (fun c => c :: new) s
  | o :: old' => replace_from o old' new s
  end.

End PyStr.

Import PyStr.

(* ===================================================================== *)
(** * Data model *)
(* ===================================================================== *)

(** Values produced by [json.loads].  A number keeps its lexeme: the script
    never computes with one. *)
Inductive json : Type :=
| JNull
| JBool (b : bool)
| JNumber (lexeme : str)
| JString (s : str)
| JArray (items : list json)
| JObject (members : list (str * json)).

(** [d.get(key)] on a decoded object.  [json.loads] keeps the last of several
    members with the same name. *)
Fixpoint dict_get (key : str) (members : list (str * json)) : option json :=
  match members with
  | [] => None
  | (k, v) :: rest =>
      match dict_get key rest with
      | Some v' => Some v'
      | None => if eqb k key then Some v else None
      end
  end.

(** [d.get(key, default)]. *)
Definition dict_get_default (key : str) (default : json)
    (members : list (str * json)) : json :=
  match dict_get key members with
  | Some v => v
  | None => default
  end.

Inductive Role : Type := user | assistant.

(** One element of [st.session_state.messages]: a dict with the keys
    ["role"], ["content"] and, for the assistant, ["emotion"]. *)
Record Message : Type := mkMessage {
  msg_role : Role;
  msg_content : str;
  msg_emotion : option str
}.

(** The object returned by [client.chats.create(model=..., config=...)].
    [chat_id] tells apart the objects created during a session. *)
Record Chat : Type := mkChat {
  chat_id : nat;
  chat_model : str;
  system_instruction : str
}.

(** One saved journal entry ([entry_data]). *)
Record JournalEntry : Type := mkJournalEntry {
  je_timestamp : str;
  je_content : str;
  je_summary : json;
  je_sentiment : json
}.

(** [st.session_state.journal_entries]: a dict from ISO date to the list of
    that day's entries, in insertion order. *)
Definition Journal : Type := list (str * list JournalEntry).

(** [st.session_state].  A missing [messages] or [journal_entries] key is
    the empty collection: the script creates both before it reads them. *)
Record SessionState : Type := mkSessionState {
  ai_persona : option str;
  chat : option Chat;
  messages : list Message;
  journal_entries : Journal;
  journal_entry_key : option str
}.

(** ** The outside world *)

(** Requests sent to the hosted model. *)
Inductive ApiCall : Type :=
| SendMessage (c : Chat) (prompt : str)
| GenerateContent (model : str) (contents : str).

(** What a request comes back with: a response whose [.text] is a string or
    [None], or an exception. *)
Inductive Outcome : Type :=
| Returns (text : option str)
| Raises.

(** What the handlers draw.  Static text, the journal history and the
    insight charts are not recorded. *)
Inductive Widget : Type :=
| ChatBubble (r : Role) (body : str) (caption : option str)
| Warning (text : str)
| SuccessSaved (sentiment : json).

Record World : Type := mkWorld {
  api_log : list ApiCall;
  chats_created : nat;
  screen : list Widget
}.

(** The three readings of the clock a run can make. *)
Record Clock : Type := mkClock {
  today : str;
  now_stamp : str;
  now_iso : str
}.

(** The widgets' values during one run of the script. *)
Record Input : Type := mkInput {
  chat_input : option str;
  journal_text : str;
  save_clicked : bool;
  clock : Clock
}.

Definition set_chat (c : option Chat) (s : SessionState) : SessionState :=
  mkSessionState (ai_persona s) c (messages s) (journal_entries s)
    (journal_entry_key s).

Definition set_messages (m : list Message) (s : SessionState) : SessionState :=
  mkSessionState (ai_persona s) (chat s) m (journal_entries s)
    (journal_entry_key s).

Definition set_ai_persona (p : str) (s : SessionState) : SessionState :=
  mkSessionState (Some p) (chat s) (messages s) (journal_entries s)
    (journal_entry_key s).

Definition set_journal_entries (j : Journal) (s : SessionState) : SessionState :=
  mkSessionState (ai_persona s) (chat s) (messages s) j (journal_entry_key s).

Definition set_journal_entry_key (k : str) (s : SessionState) : SessionState :=
  mkSessionState (ai_persona s) (chat s) (messages s) (journal_entries s)
    (Some k).

Definition log_call (c : ApiCall) (w : World) : World :=
  mkWorld (api_log w ++ [c]) (chats_created w) (screen w).

Definition draw (ws : list Widget) (w : World) : World :=
  mkWorld (api_log w) (chats_created w) (screen w ++ ws).

(* ===================================================================== *)
(** * Constants of the script *)
(* ===================================================================== *)

Definition AI_NAME : str := lit "MindEase AI".
Definition MODEL : str := lit "gemini-2.5-flash".

Definition CRISIS_KEYWORDS : list str :=
  [lit "suicide"; lit "kill myself"; lit "end my life"; lit "self-harm";
   lit "harm myself"].

Definition GENTLY_SUPPORTIVE : str := lit "Gently Supportive".

Definition PERSONA_MAPPING : list (str * str) :=
  [ (GENTLY_SUPPORTIVE,
     lit "You are a compassionate, non-judgemental companion focused on validation and empathy. "
     ++ lit "Your tone is gentle, warm, and comforting. Focus on making the user feel heard and safe.");
    (lit "Action-Oriented Coach",
     lit "You are a positive and motivating coach. After showing empathy, offer a small, "
     ++ lit "practical step, question, or short exercise the user can do next. Your tone is energetic and forward-looking.");
    (lit "Philosophical Guide",
     lit "You are a reflective guide. After acknowledging the user's feelings, offer a broader, "
     ++ lit "thought-provoking perspective or a philosophical idea to help the user reframe their thoughts. Your tone is calm and reflective.") ].

(** [PERSONA_MAPPING.get(persona, default)]. *)
Fixpoint persona_get (persona : str) (m : list (str * str)) (default : str) : str :=
  match m with
  | [] => default
  | (k, v) :: rest => if eqb k persona then v else persona_get persona rest default
  end.

(** U+1F6A8, the siren that frames the crisis heading. *)
Definition SIREN : str := [128680%N].

Definition crisis_response : str :=
  SIREN ++ lit " **CRISIS ALERT: IMMEDIATE ACTION REQUIRED** " ++ SIREN ++ LF ++ LF
  ++ lit "I am **MindEase AI**, a companion, not a crisis resource. "
  ++ lit "Your safety is paramount. Please, reach out for professional help **right now**."
  ++ LF ++ LF
  ++ lit "Call or Text **988** (Suicide & Crisis Lifeline)" ++ LF
  ++ lit "**Stay safe. You are not alone.**".

Definition CONNECTION_TROUBLE : str :=
  lit "I'm sorry, I'm having trouble connecting to the AI right now. Please check your API key and logs.".

Definition EMOTION_TAG : str := lit "[Emotion:".
Definition EMOTION_OPEN : str := lit "[Emotion: ".
Definition TAG_SEP : str := lit "] ".
Definition RBRACKET : N := 93%N.
Definition I_HEAR_YOU : str := lit "I hear you.".
Definition NEUTRAL_UNKNOWN : str := lit "Neutral/Unknown".
Definition ERROR : str := lit "Error".
Definition CRISIS : str := lit "Crisis".

Definition FENCE : str := lit "```".
Definition FENCE_JSON : str := lit "```json".
Definition BACKTICK : N := 96%N.

Definition COULD_NOT_SUMMARISE : json := JString (lit "Could not generate summary.").
Definition ANALYSIS_ERROR : json := JString (lit "Analysis Error").
Definition NO_SUMMARY : json := JString (lit "No summary available.").
Definition UNKNOWN : json := JString (lit "Unknown").

Definition EMPTY_ENTRY_WARNING : str := lit "Journal entry cannot be empty.".

(* ===================================================================== *)
(** * The script *)
(* ===================================================================== *)

Section App.

(** [str.lower], from the Python runtime. *)
Variable lower : str -> str.

(** [json.loads]; [None] when it raises. *)
Variable json_loads : str -> option json.

(** The hosted model: its answer to a request, given the requests made
    before. *)
Variable llm : list ApiCall -> ApiCall -> Outcome.

(** ** System instruction and chat object *)

Definition dynamic_instruction (persona : str) : str :=
  lit "You are " ++ AI_NAME ++ lit ", a mental health companion. "
  ++ persona_get persona PERSONA_MAPPING
       (persona_get GENTLY_SUPPORTIVE PERSONA_MAPPING [])
  ++ lit " "
  ++ lit "You are NOT a substitute for a licensed therapist. "
  ++ lit "Before responding, analyze the user's emotion (e.g., Sadness, Anxiety, Joy, Anger, Neutral) based on their last message and provide a brief, supportive insight before your main response. "
  ++ lit "If the user expresses immediate suicidal ideation or intent to harm themselves, DO NOT engage in a conversation. "
  ++ lit "Instead, immediately output a short, urgent statement about your inability to provide crisis help and redirect them to a professional resource (e.g., 'Please contact a crisis hotline immediately. Call or text 988. You are not alone.').".

(** [client.chats.create]: a new object, numbered by creation order. *)
Definition chats_create (model instruction : str) (w : World) : Chat * World :=
  (mkChat (chats_created w) model instruction,
   mkWorld (api_log w) (S (chats_created w)) (screen w)).

Definition initialize_chat_session (persona : str)
    (x : SessionState * World) : SessionState * World :=
  let (s, w) := x in
  let (c, w1) := chats_create MODEL (dynamic_instruction persona) w in
  let s1 := set_chat (Some c) s in
  let s2 := match messages s1 with
            | [] => set_messages [] s1
            | _ :: _ => s1
            end in
  (s2, w1).

(** The script sets [ai_persona] before this call, so the key is there. *)
Definition manage_chat_session_state
    (x : SessionState * World) : SessionState * World :=
  match chat (fst x) with
  | None =>
      initialize_chat_session
        (match ai_persona (fst x) with Some p => p | None => [] end) x
  | Some _ => x
  end.

(** ** Helper functions *)

Definition check_crisis (text : str) : bool :=
  existsb (fun keyword => contains keyword (lower text)) CRISIS_KEYWORDS.

Definition analysis_prompt (text : str) : str :=
  lit "Analyze the following journal entry and provide a summary (max 3 sentences) "
  ++ lit "and an overall emotional sentiment (e.g., 'Calm', 'Stressed', 'Reflective', 'Motivated', 'Hopeful'). "
  ++ lit "Format your response STRICTLY as a JSON object with keys 'summary' and 'sentiment'. "
  ++ lit "Entry to analyze: '" ++ text ++ lit "'".

(** The text handed to [json.loads]: the response without surrounding
    whitespace and without fence markers. *)
Definition json_text (response_text : str) : str :=
  strip (replace FENCE [] (replace FENCE_JSON [] (strip response_text))).

Definition analysis_fallback : json * json :=
  (COULD_NOT_SUMMARISE, ANALYSIS_ERROR).

(** What [analyze_journal_entry] returns for a given outcome of the
    request.  Everything that raises inside the [try] ends in the
    fallback: the request itself, [.strip()] on a missing text,
    [json.loads], and [.get] on a value that is not an object. *)
Definition analysis_of_outcome (o : Outcome) : json * json :=
  match o with
  | Returns (Some text) =>
      match json_loads (json_text text) with
      | Some (JObject analysis) =>
          (dict_get_default (lit "summary") NO_SUMMARY analysis,
           dict_get_default (lit "sentiment") UNKNOWN analysis)
      | Some _ => analysis_fallback
      | None => analysis_fallback
      end
  | Returns None => analysis_fallback
  | Raises => analysis_fallback
  end.

Definition analyze_journal_entry (text : str) (w : World) : (json * json) * World :=
  let call := GenerateContent MODEL (analysis_prompt text) in
  (analysis_of_outcome (llm (api_log w) call), log_call call w).

Definition emotion_prompt (prompt : str) : str :=
  lit "Analyze the following user message for a single dominant emotion "
  ++ lit "(e.g., Sadness, Anxiety, Joy, Anger, Neutral): '" ++ prompt ++ lit "'. "
  ++ lit "Then, respond as a compassionate AI companion, following your system instructions. "
  ++ lit "Format your output strictly as: [Emotion: <Emotion>] <Your Supportive Response>".

(** The tag parsing of [get_ai_response_and_emotion], applied to
    [full_text = response.text.strip()].  Returns [(ai_response, emotion)]. *)
Definition parse_emotion_tag (full_text : str) : str * str :=
  if startswith EMOTION_TAG full_text then
    let parts := split1 TAG_SEP full_text in
    let emotion := replace [RBRACKET] [] (replace EMOTION_OPEN [] (nth 0 parts [])) in
    let ai_response :=
      if 1 <? length parts then nth 1 parts [] else I_HEAR_YOU in
    (ai_response, emotion)
  else
    (full_text, NEUTRAL_UNKNOWN).

Definition response_of_outcome (o : Outcome) : str * str :=
  match o with
  | Returns (Some text) => parse_emotion_tag (strip text)
  | Returns None => (CONNECTION_TROUBLE, ERROR)
  | Raises => (CONNECTION_TROUBLE, ERROR)
  end.

(** Returns [(ai_response, emotion)].  Reading a missing
    [st.session_state.chat] raises inside the [try] as well, before any
    request is made. *)
Definition get_ai_response_and_emotion (prompt : str)
    (x : SessionState * World) : (str * str) * World :=
  let (s, w) := x in
  match chat s with
  | Some c =>
      let call := SendMessage c (emotion_prompt prompt) in
      (response_of_outcome (llm (api_log w) call), log_call call w)
  | None => ((CONNECTION_TROUBLE, ERROR), w)
  end.

(** ** The chat tab *)

Definition DETECTED_EMOTION : str := lit "**Detected Emotion:** ".
Definition CONNECTION_FAILED : str :=
  lit "**Status:** AI Connection Failed (Check your API Key)".

(** The caption under a message of the history. *)
Definition history_caption (m : Message) : option str :=
  match msg_role m, msg_emotion m with
  | assistant, Some e =>
      if eqb e ERROR then Some CONNECTION_FAILED else Some (DETECTED_EMOTION ++ e)
  | _, _ => None
  end.

Definition display_history (s : SessionState) (w : World) : World :=
  draw (map (fun m => ChatBubble (msg_role m) (msg_content m) (history_caption m))
            (messages s)) w.

Definition append_message (m : Message) (s : SessionState) : SessionState :=
  set_messages (messages s ++ [m]) s.

(** The caption under a fresh answer. *)
Definition answer_caption (emotion : str) : option str :=
  if eqb emotion ERROR then Some CONNECTION_FAILED
  else Some (DETECTED_EMOTION ++ emotion).

(** [render_chat_tab].  The boolean tells whether the run ended in
    [st.rerun()].  The outer [except] of the source is not reached:
    [get_ai_response_and_emotion] catches every exception itself. *)
Definition render_chat_tab (prompt : option str)
    (x : SessionState * World) : SessionState * World * bool :=
  let (s, w) := x in
  let w0 := display_history s w in
  match prompt with
  | None => (s, w0, false)
  | Some [] => (s, w0, false)
  | Some p =>
      let s1 := append_message (mkMessage user p None) s in
      let w1 := draw [ChatBubble user p None] w0 in
      if check_crisis p then
        let w2 := draw [ChatBubble assistant crisis_response None] w1 in
        let s2 := append_message
                    (mkMessage assistant crisis_response (Some CRISIS)) s1 in
        (s2, w2, true)
      else
        let '(ai_response, emotion, w2) := get_ai_response_and_emotion p (s1, w1) in
        let w3 := draw [ChatBubble assistant ai_response (answer_caption emotion)] w2 in
        let s2 := append_message
                    (mkMessage assistant ai_response (Some emotion)) s1 in
        (set_chat None s2, w3, true)
  end.

(** ** The journal tab *)

Fixpoint journal_mem (day : str) (j : Journal) : bool :=
  match j with
  | [] => false
  | (d, _) :: rest => eqb d day || journal_mem day rest
  end.

(** [journal_entries[day]], the empty list for a missing day. *)
Fixpoint journal_get (day : str) (j : Journal) : list JournalEntry :=
  match j with
  | [] => []
  | (d, es) :: rest => if eqb d day then es else journal_get day rest
  end.

(** [journal_entries[day].append(e)] for a day that is present. *)
Fixpoint journal_append (day : str) (e : JournalEntry) (j : Journal) : Journal :=
  match j with
  | [] => []
  | (d, es) :: rest =>
      if eqb d day then (d, es ++ [e]) :: rest
      else (d, es) :: journal_append day e rest
  end.

Definition ENTRY_SUFFIX : str := lit "_entry".

(** The [Save Entry] handler and the rest of [render_journal_tab]; the
    history below the button only reads the store. *)
Definition render_journal_tab (new_entry : str) (clicked : bool) (c : Clock)
    (x : SessionState * World) : SessionState * World * bool :=
  let (s, w) := x in
  if clicked then
    match strip new_entry with
    | [] => (s, draw [Warning EMPTY_ENTRY_WARNING] w, true)
    | _ :: _ =>
        let '(summary, sentiment, w1) := analyze_journal_entry (strip new_entry) w in
        let entry_data :=
          mkJournalEntry (now_stamp c) (strip new_entry) summary sentiment in
        let j0 := journal_entries s in
        let j1 := if journal_mem (today c) j0 then j0 else j0 ++ [(today c, [])] in
        let j2 := journal_append (today c) entry_data j1 in
        let s1 := set_journal_entry_key (now_iso c ++ ENTRY_SUFFIX)
                    (set_journal_entries j2 s) in
        (s1, draw [SuccessSaved sentiment] w1, true)
    end
  else (s, w, false).

(** ** One run of the script *)

(** The statements at the top of the script that touch the session. *)
Definition script_prologue (c : Clock)
    (x : SessionState * World) : SessionState * World :=
  let (s, w) := x in
  let '(s1, w1) := manage_chat_session_state (set_ai_persona GENTLY_SUPPORTIVE s, w) in
  let s2 := match journal_entry_key s1 with
            | None => set_journal_entry_key (today c ++ ENTRY_SUFFIX) s1
            | Some _ => s1
            end in
  (s2, w1).

(** A run stops at the first [st.rerun()]; the tabs after it are not
    rendered.  The insights tab only reads the store. *)
Definition script_run (i : Input)
    (x : SessionState * World) : SessionState * World * bool :=
  let x0 := script_prologue (clock i) x in
  let '(s1, w1, rerun1) := render_chat_tab (chat_input i) x0 in
  if rerun1 then (s1, w1, true)
  else render_journal_tab (journal_text i) (save_clicked i) (clock i) (s1, w1).

(** A session: the runs one after the other. *)
Definition session_run (inputs : list Input)
    (x : SessionState * World) : SessionState * World :=
  fold_left (fun acc i => fst (script_run i acc)) inputs x.

End App.

(* ===================================================================== *)
(** * The insights tab: frequency tables *)
(* ===================================================================== *)

(** A two-column data frame (label, count), one row per list element. *)
Definition Table : Type := list (str * nat).

(** [x in l] for a list of strings. *)
Definition mem_str (x : str) (l : list str) : bool := existsb (eqb x) l.

Definition CHAT_EXCLUDED : list str := [NEUTRAL_UNKNOWN; ERROR; CRISIS].
Definition JOURNAL_EXCLUDED : list str := [lit "Analysis Error"; lit "Unknown"].

(** The list comprehension over [st.session_state.messages]; [None] when
    [msg['emotion']] raises [KeyError]. *)
Fixpoint chat_emotions (msgs : list Message) : option (list str) :=
  match msgs with
  | [] => Some []
  | msg :: rest =>
      match msg_role msg, msg_emotion msg with
      | assistant, Some e =>
          if negb (mem_str e CHAT_EXCLUDED)
          then option_map (cons e) (chat_emotions rest)
          else chat_emotions rest
      | assistant, None => None
      | user, _ => chat_emotions rest
      end
  end.

(** The test [if sentiment and sentiment not in [...]] on one entry:
    [Some (Some s)] when the label [s] is collected, [Some None] when the
    entry is skipped.  Truthy values that are not strings (numbers, [True],
    non-empty arrays and objects) are outside this model: [None]. *)
Definition collect_sentiment (v : json) : option (option str) :=
  match v with
  | JString [] => Some None
  | JString s => Some (if negb (mem_str s JOURNAL_EXCLUDED) then Some s else None)
  | JNull => Some None
  | JBool false => Some None
  | JArray [] => Some None
  | JObject [] => Some None
  | _ => None
  end.

Fixpoint collect_entries (es : list JournalEntry) : option (list str) :=
  match es with
  | [] => Some []
  | entry :: rest =>
      match collect_sentiment (je_sentiment entry), collect_entries rest with
      | Some (Some s), Some l => Some (s :: l)
      | Some None, Some l => Some l
      | _, _ => None
      end
  end.

(** The two nested loops over [journal_entries.values()]. *)
Fixpoint journal_sentiments (j : Journal) : option (list str) :=
  match j with
  | [] => Some []
  | (_, day_entries) :: rest =>
      match collect_entries day_entries, journal_sentiments rest with
      | Some a, Some b => Some (a ++ b)
      | _, _ => None
      end
  end.

(** [Counter(labels).items()]: one pair per distinct label, in order of
    first occurrence. *)
Fixpoint counter_add (k : str) (c : Table) : Table :=
  match c with
  | [] => [(k, 1)]
  | (k', n) :: rest =>
      if eqb k' k then (k', S n) :: rest else (k', n) :: counter_add k rest
  end.

Definition Counter (labels : list str) : Table :=
  fold_left (fun c k => counter_add k c) labels [].

(** Rows in descending order of count. *)
Definition count_ge (a b : str * nat) : Prop := snd b <= snd a.

Section Insights.

(** [df.sort_values(by='Count', ascending=False).reset_index(drop=True)],
    from pandas: some rearrangement of the rows with the counts in
    descending order.  The order among equal counts is left to pandas. *)
Variable sort_values : Table -> Table.

Definition frequency_table (labels : list str) : Table :=
  sort_values (Counter labels).

(** A table is drawn for a non-empty list of labels only. *)
Definition table_of (labels : list str) : option Table :=
  match labels with
  | [] => None
  | _ :: _ => Some (frequency_table labels)
  end.

(** What the tab shows: the two tables (when drawn) and the two metrics. *)
Record Insights : Type := mkInsights {
  df_emotions : option Table;
  df_sentiments : option Table;
  most_frequent_chat_emotion : option str;
  most_frequent_journal_sentiment : str
}.

Definition NONE : str := lit "None".

(** [df.iloc[0][label column]], or ["None"] for an empty frame. *)
Definition first_label (t : Table) : str :=
  match t with
  | [] => NONE
  | (l, _) :: _ => l
  end.

Definition insights_of (emotions sentiments : list str) : Insights :=
  mkInsights (table_of emotions) (table_of sentiments)
    (option_map first_label (table_of emotions))
    (match table_of sentiments with
     | None => NONE
     | Some t => first_label t
     end).

(** [render_insights_tab]; the outer [None] stands for a run that raises
    or leaves the model ([chat_emotions], [collect_sentiment]), the inner
    one for the early [return] on an empty session. *)
Definition render_insights_tab (s : SessionState) : option (option Insights) :=
  match chat_emotions (messages s) with
  | None => None
  | Some emotions =>
      match emotions, journal_entries s with
      | [], [] => Some None
      | _, _ =>
          match journal_sentiments (journal_entries s) with
          | None => None
          | Some sentiments => Some (Some (insights_of emotions sentiments))
          end
      end
  end.

End Insights.

(* ===================================================================== *)
(** * Concrete library instances, to run the model *)
(* ===================================================================== *)

(** [str.lower] on ASCII text. *)
Definition ascii_lower (s : str) : str :=
  map (fun c => if (65 <=? c)%N && (c <=? 90)%N then (c + 32)%N else c) s.

(** A stable sort by descending count. *)
Module CountOrder <: Orders.TotalLeBool.
Definition t : Type := (str * nat)%type.
Definition leb (x y : t) : bool := snd y <=? snd x.
Lemma leb_total : forall x y, leb x y = true \/ leb y x = true.
Proof.
  intros x y; unfold leb.
  destruct (Nat.leb_spec (snd y) (snd x)); [now left|right].
  apply Nat.leb_le; lia.
Qed.
End CountOrder.

Module CountSort := Mergesort.Sort CountOrder.

Definition sort_by_count : Table -> Table := CountSort.sort.

(** A decoder for the fragment of JSON made of one object whose member
    values are strings without escapes; [None] on any other text. *)
Module FlatJson.

Definition json_space (c : N) : bool :=
  (c =? 32)%N || (c =? 9)%N || (c =? 10)%N || (c =? 13)%N.

Fixpoint skip_space (s : str) : str :=
  match s with
  | [] => []
  | c :: t => if json_space c then skip_space t else s
  end.

(** The characters up to the closing quote, and what follows it. *)
Fixpoint read_chars (s : str) : option (str * str) :=
  match s with
  | [] => None
  | c :: t =>
      if (c =? DQUOTE)%N then Some ([], t)
      else if (c =? 92)%N || (c <? 32)%N then None
      else match read_chars t with
           | Some (a, r) => Some (c :: a, r)
           | None => None
           end
  end.

Definition read_string (s : str) : option (str * str) :=
  match skip_space s with
  | c :: t => if (c =? DQUOTE)%N then read_chars t else None
  | [] => None
  end.

(** The members after an opening brace or a comma, up to the closing
    brace. *)
Fixpoint read_members (fuel : nat) (s : str) : option (list (str * json) * str) :=
  match fuel with
  | O => None
  | S fuel' =>
      match read_string s with
      | None => None
      | Some (k, r1) =>
          match skip_space r1 with
          | 58%N :: r2 =>
              match read_string r2 with
              | None => None
              | Some (v, r3) =>
                  match skip_space r3 with
                  | 44%N :: r4 =>
                      match read_members fuel' r4 with
                      | Some (ms, r5) => Some ((k, JString v) :: ms, r5)
                      | None => None
                      end
                  | 125%N :: r4 => Some ([(k, JString v)], r4)
                  | _ => None
                  end
              end
          | _ => None
          end
      end
  end.

Definition loads (s : str) : option json :=
  match skip_space s with
  | 123%N :: r =>
      match skip_space r with
      | 125%N :: r' =>
          match skip_space r' with [] => Some (JObject []) | _ :: _ => None end
      | _ =>
          match read_members (length r) r with
          | Some (ms, r') =>
              match skip_space r' with [] => Some (JObject ms) | _ :: _ => None end
          | None => None
          end
      end
  | _ => None
  end.

(** A JSON text written with apostrophes in place of double quotes. *)
Definition jlit (s : string) : str :=
  map (fun c => if (c =? 39)%N then DQUOTE else c) (lit s).

End FlatJson.

(** A model that fails every request, and one that always answers with the
    same text. *)
Definition llm_down : list ApiCall -> ApiCall -> Outcome := fun _ _ => Raises.
Definition llm_says (text : str) : list ApiCall -> ApiCall -> Outcome :=
  fun _ _ => Returns (Some text).

(** A session before its first run, and a world in which nothing happened. *)
Definition new_session : SessionState := mkSessionState None None [] [] None.
Definition new_world : World := mkWorld [] 0 [].

Definition a_clock : Clock :=
  mkClock (lit "2025-01-31") (lit "2025-01-31 09:30:00")
    (lit "2025-01-31T09:30:00.000001").

(** A chat input that holds a crisis keyword, in mixed case. *)
Definition crisis_input : Input :=
  mkInput (Some (lit "I want to End My Life")) [] false a_clock.

(** A click on [Save Entry] over a text area that holds blanks only. *)
Definition blank_save : Input :=
  mkInput None (lit "   " ++ LF) true a_clock.

(* ===================================================================== *)
(** * Notions used in the statements *)
(* ===================================================================== *)

(** A session with a chat object, as the chat tab finds it. *)
Definition chat0 : Chat := mkChat 0 MODEL [].

Definition ready_session : SessionState :=
  mkSessionState (Some GENTLY_SUPPORTIVE) (Some chat0) [] [] None.

Definition ready_world : World := mkWorld [] 1 [].

Definition history_bubbles (s : SessionState) : list Widget :=
  map (fun m => ChatBubble (msg_role m) (msg_content m) (history_caption m))
      (messages s).

(** Every chat object of a session was counted when it was created. *)
Definition chat_counted (x : SessionState * World) : Prop :=
  forall c, chat (fst x) = Some c -> chat_id c < chats_created (snd x).

(** The two statements that store an entry: create the day's list when it
    is missing, then append. *)
Definition journal_store (day : str) (e : JournalEntry) (j : Journal) : Journal :=
  journal_append day e
    (if journal_mem day j then j else j ++ [(day, [])]).

(** How a fenced answer opens: with [```json], or with a bare [```] that
    is followed neither by [json] nor by a backtick. *)
Definition fence_opener (opener body : str) : Prop :=
  opener = FENCE_JSON \/
  (opener = FENCE /\ startswith (lit "json") body = false
   /\ startswith [BACKTICK] body = false).

(** The answer of the example: a [```json] block around the object. *)
Definition calm_answer : str :=
  FENCE_JSON ++ LF
  ++ FlatJson.jlit "{'summary':'...','sentiment':'Calm'}"
  ++ LF ++ FENCE.

(** The emotion labels of the chat: one per assistant message. *)
Definition chat_labels (msgs : list Message) : list str :=
  flat_map (fun m => match msg_role m, msg_emotion m with
                     | assistant, Some e => [e]
                     | _, _ => []
                     end) msgs.

(** The sentiment labels of the journal: one per entry whose sentiment is
    a text, day after day. *)
Definition entry_labels (es : list JournalEntry) : list str :=
  flat_map (fun e => match je_sentiment e with
                     | JString l => [l]
                     | _ => []
                     end) es.

Definition journal_labels (j : Journal) : list str :=
  flat_map (fun day => entry_labels (snd day)) j.

(** Every assistant message carries an emotion. *)
Definition emotions_present (msgs : list Message) : bool :=
  forallb (fun m => match msg_role m, msg_emotion m with
                    | assistant, None => false
                    | _, _ => true
                    end) msgs.

(** Every sentiment of the journal is a text. *)
Definition sentiments_are_text (j : Journal) : bool :=
  forallb (fun day =>
             forallb (fun e => match je_sentiment e with
                               | JString _ => true
                               | _ => false
                               end) (snd day)) j.

(** The labels that are counted. *)
Definition chat_kept (l : str) : bool := negb (mem_str l CHAT_EXCLUDED).

Definition journal_kept (l : str) : bool :=
  negb (eqb l []) && negb (mem_str l JOURNAL_EXCLUDED).

(** The journal labels that C6 says are counted: all but the two listed. *)
Definition journal_kept_as_claimed (l : str) : bool :=
  negb (mem_str l JOURNAL_EXCLUDED).

(** How often [l] occurs in [labels]. *)
Definition occurrences (l : str) (labels : list str) : nat :=
  length (filter (eqb l) labels).

(** The count in the first row for [l], 0 without such a row. *)
Fixpoint table_count (l : str) (t : Table) : nat :=
  match t with
  | [] => 0
  | (k, n) :: rest => if eqb k l then n else table_count l rest
  end.

Definition JOY : str := lit "Joy".

Definition SADNESS : str := lit "Sadness".

(** A session with two joyful answers, a sad one and a failed one, and a
    journal with one calm entry. *)
Definition mixed_session : SessionState :=
  mkSessionState (Some GENTLY_SUPPORTIVE) None
    [ mkMessage user (lit "I passed!") None;
      mkMessage assistant (lit "Great to hear!") (Some JOY);
      mkMessage user (lit "And got a prize") None;
      mkMessage assistant (lit "Wonderful.") (Some JOY);
      mkMessage user (lit "But my cat is ill") None;
      mkMessage assistant (lit "I am sorry.") (Some SADNESS);
      mkMessage user (lit "hello?") None;
      mkMessage assistant CONNECTION_TROUBLE (Some ERROR) ]
    [ (lit "2025-01-31",
       [ mkJournalEntry (lit "2025-01-31 09:30:00") (lit "A quiet day.")
           (JString (lit "...")) (JString (lit "Calm")) ]) ]
    None.

(** The journal of a session in which the analysis answered with an empty
    sentiment. *)
Definition blank_sentiment_answer : str :=
  FlatJson.jlit "{'summary':'A short note.','sentiment':''}".

Definition blank_sentiment_session : SessionState :=
  fst (fst (render_journal_tab FlatJson.loads (llm_says blank_sentiment_answer)
              (lit "Nothing today.") true a_clock (ready_session, ready_world))).

(* ===================================================================== *)
(** * The journal history and its export *)
(* ===================================================================== *)

(** [s.split(c)] for a separator of one character: every occurrence cuts. *)
Fixpoint split_on (c : N) (s : str) : list str :=
  match s with
  | [] => [[]]
  | x :: t =>
      if N.eqb x c then [] :: split_on c t
      else match split_on c t with
           | h :: r => (x :: h) :: r
           | [] => [[x]]
           end
  end.

(** [s[:-n]]. *)
Definition drop_last (n : nat) (s : str) : str := firstn (length s - n) s.

(** [a <= b] on strings: code point by code point. *)
Fixpoint str_leb (a b : str) : bool :=
  match a, b with
  | [], _ => true
  | _ :: _, [] => false
  | x :: a', y :: b' =>
      match N.compare x y with
      | Lt => true
      | Gt => false
      | Eq => str_leb a' b'
      end
  end.

(** [sorted(keys, reverse=True)]. *)
Lemma str_leb_total (x y : str) : str_leb y x = true \/ str_leb x y = true.
Proof.
  revert x.
  induction y as [|b y IH]; intros [|a x]; simpl; auto.
  rewrite (N.compare_antisym a b).
  destruct (N.compare a b); simpl; auto.
Qed.

Module DateOrder <: Orders.TotalLeBool.
Definition t : Type := str.
Definition leb (x y : t) : bool := str_leb y x.
Definition leb_total : forall x y, leb x y = true \/ leb y x = true :=
  str_leb_total.
End DateOrder.

Module DateSort := Mergesort.Sort DateOrder.

Definition sorted_reverse : list str -> list str := DateSort.sort.

(** [str(v)] inside an f-string.  Numbers, arrays and objects are outside
    this model: [None]. *)
Definition py_str (v : json) : option str :=
  match v with
  | JString s => Some s
  | JNull => Some (lit "None")
  | JBool true => Some (lit "True")
  | JBool false => Some (lit "False")
  | _ => None
  end.

(** [str(n)] for a length. *)
Definition decimal (n : nat) : str :=
  lit (NilZero.string_of_uint (Nat.to_uint n)).

(** The list of the values, when every element has one. *)
Fixpoint all_some {A : Type} (l : list (option A)) : option (list A) :=
  match l with
  | [] => Some []
  | Some a :: rest =>
      match all_some rest with
      | Some r => Some (a :: r)
      | None => None
      end
  | None :: _ => None
  end.

(** U+1F552 and U+1F4C5, the clock and the calendar of the headings. *)
Definition CLOCK_FACE : str := [128338%N].
Definition CALENDAR : str := [128197%N].

Definition EXPORT_RULE : str := lit "--------------------------------------".

(** What is drawn for one entry: two markdown lines and the text. *)
Record EntryView : Type := mkEntryView {
  ev_heading : str;
  ev_summary : str;
  ev_text : str
}.

(** What is drawn for one day: the expander with its entries and the
    download button with its data. *)
Record DayView : Type := mkDayView {
  dv_date : str;
  dv_label : str;
  dv_entries : list EntryView;
  dv_download_label : str;
  dv_data : str;
  dv_file_name : str
}.

Section History.

(** [datetime.strptime(d, "%Y-%m-%d").strftime("%d-%m-%Y")]; [None] when
    it raises [ValueError]. *)
Variable reformat_date : str -> option str.

Definition display_date_of (selected_date : str) : str :=
  match reformat_date selected_date with
  | Some d => d
  | None => selected_date
  end.

(** [entry['timestamp'].split(' ')[1]]; [None] for [IndexError]. *)
Definition entry_time (timestamp : str) : option str :=
  nth_error (split_on 32 timestamp) 1.

Definition entry_view (entry : JournalEntry) : option EntryView :=
  match entry_time (je_timestamp entry),
        py_str (je_sentiment entry), py_str (je_summary entry) with
  | Some time, Some sentiment, Some summary =>
      Some (mkEntryView
              (lit "**" ++ CLOCK_FACE ++ lit " " ++ drop_last 3 time
               ++ lit "** | Sentiment: **" ++ sentiment ++ lit "**")
              (lit "_Summary: " ++ summary ++ lit "_")
              (je_content entry))
  | _, _, _ => None
  end.

(** The lines one entry adds to [all_entries_text]. *)
Definition export_block (display_date : str) (entry : JournalEntry) : option str :=
  match entry_time (je_timestamp entry),
        py_str (je_sentiment entry), py_str (je_summary entry) with
  | Some time, Some sentiment, Some summary =>
      Some (lit "Date: " ++ display_date ++ LF
            ++ lit "Entry Time: " ++ time ++ LF
            ++ lit "Sentiment: " ++ sentiment ++ LF
            ++ lit "Summary: " ++ summary ++ LF
            ++ lit "Content: " ++ je_content entry ++ LF
            ++ EXPORT_RULE ++ LF)
  | _, _, _ => None
  end.

Definition export_header (display_date : str) : str :=
  lit "--- Journal Entries for " ++ display_date ++ lit " ---" ++ LF ++ LF.

(** One turn of the loop over the dates: the entries newest first. *)
Definition day_view (selected_date : str)
    (entries_for_day : list JournalEntry) : option DayView :=
  let display_date := display_date_of selected_date in
  match all_some (map entry_view (rev entries_for_day)),
        all_some (map (export_block display_date) (rev entries_for_day)) with
  | Some views, Some blocks =>
      Some (mkDayView selected_date
              (CALENDAR ++ lit " **" ++ display_date ++ lit "** ("
               ++ decimal (length entries_for_day) ++ lit " entries)")
              views
              (lit "Download All Entries for " ++ display_date)
              (export_header display_date ++ concat blocks)
              (lit "mind_ease_journal_all_" ++ selected_date ++ lit ".txt"))
  | _, _ => None
  end.

(** The history under the [Save Entry] button; [None] when drawing it
    raises or leaves the model.  An empty journal gives no day. *)
Definition journal_history (j : Journal) : option (list DayView) :=
  all_some (map (fun selected_date =>
                   day_view selected_date (journal_get selected_date j))
                (sorted_reverse (map fst j))).

End History.

(** The reformatting on texts of the shape [dddd-dd-dd], without any check
    of the calendar. *)
Definition is_digit (c : N) : bool := (48 <=? c)%N && (c <=? 57)%N.

Definition reformat_iso_date (d : str) : option str :=
  match d with
  | [y1; y2; y3; y4; 45%N; m1; m2; 45%N; d1; d2] =>
      if forallb is_digit [y1; y2; y3; y4; m1; m2; d1; d2]
      then Some [d1; d2; 45%N; m1; m2; 45%N; y1; y2; y3; y4]
      else None
  | _ => None
  end.

(** ** Further notions used in the statements *)

(** A list of messages made of turns: a user message without emotion, then
    an assistant message with one. *)
Fixpoint turns (msgs : list Message) : bool :=
  match msgs with
  | [] => true
  | u :: rest =>
      match rest with
      | [] => false
      | a :: rest' =>
          match msg_role u, msg_emotion u, msg_role a, msg_emotion a with
          | user, None, assistant, Some _ => turns rest'
          | _, _, _, _ => false
          end
      end
  end.

(** The sum of the counts of a table. *)
Definition table_total (t : Table) : nat := list_sum (map snd t).

(** The analysis gives no sentiment of its own: the request fails, the
    text does not decode to an object, or the object has no
    ['sentiment']. *)
Definition no_sentiment (json_loads : str -> option json) (o : Outcome) : bool :=
  match o with
  | Returns (Some text) =>
      match json_loads (json_text text) with
      | Some (JObject analysis) =>
          match dict_get (lit "sentiment") analysis with
          | None => true
          | Some _ => false
          end
      | _ => true
      end
  | _ => true
  end.

(** An entry that the history can draw: its timestamp has a second part
    and its summary and sentiment print. *)
Definition drawable (entry : JournalEntry) : bool :=
  match entry_time (je_timestamp entry),
        py_str (je_sentiment entry), py_str (je_summary entry) with
  | Some _, Some _, Some _ => true
  | _, _, _ => false
  end.

Definition all_drawable (j : Journal) : bool :=
  forallb (fun day => forallb drawable (snd day)) j.

(** A journal with two days, the later one with two entries. *)
Definition two_day_journal : Journal :=
  [ (lit "2025-01-30",
     [ mkJournalEntry (lit "2025-01-30 21:05:10") (lit "Slept badly.")
         (JString (lit "A tired day.")) (JString (lit "Stressed")) ]);
    (lit "2025-01-31",
     [ mkJournalEntry (lit "2025-01-31 09:30:00") (lit "A quiet day.")
         (JString (lit "...")) (JString (lit "Calm"));
       mkJournalEntry (lit "2025-01-31 18:45:59") (lit "Went for a walk.")
         (JString (lit "A walk.")) (JString (lit "Hopeful")) ]) ].

(** The requests one run of the script makes, read off its input and the
    session: the chat request when a non-crisis message arrives, else the
    analysis request when a non-blank entry is saved. *)
Definition run_calls (lower : str -> str) (i : Input) (s : SessionState)
    (w : World) : list ApiCall :=
  match chat_input i with
  | Some (a :: p) =>
      if check_crisis lower (a :: p) then []
      else [SendMessage
              (match chat s with
               | Some c => c
               | None => mkChat (chats_created w) MODEL
                           (dynamic_instruction GENTLY_SUPPORTIVE)
               end)
              (emotion_prompt (a :: p))]
  | _ =>
      if save_clicked i then
        match strip (journal_text i) with
        | [] => []
        | _ :: _ =>
            [GenerateContent MODEL (analysis_prompt (strip (journal_text i)))]
        end
      else []
  end.

(** What the history draws for [two_day_journal]. *)
Definition two_day_views : list DayView :=
  match journal_history reformat_iso_date two_day_journal with
  | Some views => views
  | None => []
  end.

(** The expander of the latest date of [two_day_journal]. *)
Definition latest_view : DayView :=
  nth 0 two_day_views (mkDayView [] [] [] [] [] []).

(** A chat input that holds no crisis keyword. *)
Definition plain_input : Input :=
  mkInput (Some (lit "I passed my exam")) [] false a_clock.

(* ===================================================================== *)
(** * Facts about the string operations *)
(* ===================================================================== *)

Section StringFacts.

Lemma strip_prefix_app (p r : str) : strip_prefix p (p ++ r) = Some r.
Proof.
  induction p as [|a p IH]; simpl; [reflexivity|].
  rewrite N.eqb_refl. exact IH.
Qed.

Lemma strip_prefix_Some (p s r : str) :
  strip_prefix p s = Some r -> s = p ++ r.
Proof.
  revert s; induction p as [|a p IH]; intros s H; simpl in H.
  - inversion H; reflexivity.
  - destruct s as [|b s]; [discriminate|].
    destruct (N.eqb_spec a b) as [->|]; [|discriminate].
    simpl. f_equal. apply IH, H.
Qed.

Lemma strip_prefix_cons (o : N) (p : str) (c : N) (s : str) :
  strip_prefix (o :: p) (c :: s) =
  if N.eqb o c then strip_prefix p s else None.
Proof. reflexivity. Qed.

Lemma strip_prefix_head (o : N) (p s : str) (c : N) :
  c <> o -> strip_prefix (o :: p) (c :: s) = None.
Proof.
  intros H; simpl. destruct (N.eqb_spec o c); [congruence|reflexivity].
Qed.

Lemma startswith_iff (p s : str) :
  startswith p s = true <-> exists r, s = p ++ r.
Proof.
  unfold startswith; split.
  - destruct (strip_prefix p s) eqn:E; [|discriminate].
    intros _. eexists. apply strip_prefix_Some, E.
  - intros [r ->]. rewrite strip_prefix_app. reflexivity.
Qed.

Lemma startswith_app (p r : str) : startswith p (p ++ r) = true.
Proof. apply startswith_iff. now exists r. Qed.

(** [contains] decides the substring relation. *)
Lemma contains_iff (k s : str) :
  contains k s = true <-> exists pre post, s = pre ++ k ++ post.
Proof.
  split.
  - induction s as [|c s IH]; simpl; intros H.
    + rewrite orb_false_r in H. apply startswith_iff in H as [r ->].
      now exists [], r.
    + apply orb_true_iff in H as [H|H].
      * apply startswith_iff in H as [r ->]. now exists [], r.
      * destruct (IH H) as (pre & post & ->). now exists (c :: pre), post.
  - intros (pre & post & ->).
    induction pre as [|c pre IH]; simpl.
    + destruct (k ++ post) eqn:E; simpl; rewrite <- E, startswith_app;
        reflexivity.
    + rewrite IH. apply orb_true_r.
Qed.

Lemma eqb_eq (a b : str) : eqb a b = true <-> a = b.
Proof.
  revert b; induction a as [|x a IH]; intros [|y b]; simpl;
    try (split; [discriminate|discriminate]); try tauto.
  rewrite andb_true_iff, N.eqb_eq, IH. split.
  - intros [-> ->]; reflexivity.
  - intros H; inversion H; auto.
Qed.

Lemma eqb_refl (a : str) : eqb a a = true.
Proof. now apply eqb_eq. Qed.

Lemma eqb_neq (a b : str) : eqb a b = false <-> a <> b.
Proof.
  rewrite <- eqb_eq. destruct (eqb a b); split; congruence.
Qed.

(** The first occurrence of a separator that begins with [o] comes after
    any stretch of text without [o]. *)
Lemma split_first_skip (o : N) (sep' a b : str) :
  ~ In o a ->
  split_first (o :: sep') (a ++ (o :: sep') ++ b) = Some (a, b).
Proof.
  induction a as [|c a IH]; intros Ha.
  - change ([] ++ (o :: sep') ++ b) with ((o :: sep') ++ b).
    destruct ((o :: sep') ++ b) eqn:E; [discriminate|].
    unfold split_first; fold split_first.
    rewrite <- E, strip_prefix_app. reflexivity.
  - change ((c :: a) ++ (o :: sep') ++ b) with (c :: (a ++ (o :: sep') ++ b)).
    unfold split_first; fold split_first.
    rewrite strip_prefix_head by (intros ->; apply Ha; now left).
    rewrite IH by (intros H; apply Ha; now right). reflexivity.
Qed.

Lemma split_first_None (sep s : str) :
  contains sep s = false -> split_first sep s = None.
Proof.
  induction s as [|c s IH]; intros H; cbn [contains] in H;
    apply orb_false_iff in H as [H1 H2]; unfold startswith in H1;
    unfold split_first; fold split_first.
  - destruct (strip_prefix sep []); [discriminate|reflexivity].
  - destruct (strip_prefix sep (c :: s)); [discriminate|].
    rewrite (IH H2). reflexivity.
Qed.

(** ** [replace] *)

(** The defining equation of [replace_from] on a non-empty text, from the
    unfolding of the well-founded fixpoint. *)
Lemma replace_from_cons (o : N) (old' new : str) (c : N) (t : str) :
  replace_from o old' new (c :: t) =
  match strip_prefix (o :: old') (c :: t) with
  | Some rest => new ++ replace_from o old' new rest
  | None => c :: replace_from o old' new t
  end.
Proof.
  unfold replace_from at 1.
  rewrite Subterm.FixWf_unfold.
  - cbn [pr1 pr2]. unfold replace_from_functional.
    change (strip_prefix (o :: old') (c :: t))
      with (proj1_sig (inspect (strip_prefix (o :: old') (c :: t)))) at 2.
    destruct (inspect (strip_prefix (o :: old') (c :: t))) as [[rest|] e];
      reflexivity.
  - intros [o1 [old1 [new1 s1]]] f g H. cbn [pr1 pr2].
    unfold replace_from_functional.
    destruct s1 as [|c1 t1]; [reflexivity|].
    destruct (inspect (strip_prefix (o1 :: old1) (c1 :: t1))) as [[rest|] e];
      cbn; rewrite H; reflexivity.
Qed.

Lemma replace_from_match (o : N) (old' new rest : str) :
  replace_from o old' new ((o :: old') ++ rest) =
  new ++ replace_from o old' new rest.
Proof.
  change ((o :: old') ++ rest) with (o :: (old' ++ rest)).
  rewrite replace_from_cons.
  change (o :: (old' ++ rest)) with ((o :: old') ++ rest).
  rewrite strip_prefix_app. reflexivity.
Qed.

Lemma replace_from_skip (o : N) (old' new a b : str) :
  ~ In o a ->
  replace_from o old' new (a ++ b) = a ++ replace_from o old' new b.
Proof.
  induction a as [|c a IH]; intros Ha; [reflexivity|].
  change ((c :: a) ++ b) with (c :: (a ++ b)).
  rewrite replace_from_cons.
  rewrite strip_prefix_head by (intros ->; apply Ha; now left).
  rewrite IH by (intros H; apply Ha; now right). reflexivity.
Qed.

Lemma replace_from_absent (o : N) (old' new s : str) :
  contains (o :: old') s = false -> replace_from o old' new s = s.
Proof.
  induction s as [|c s IH]; intros H.
  - reflexivity.
  - rewrite replace_from_cons.
    cbn [contains] in H. apply orb_false_iff in H as [H1 H2].
    unfold startswith in H1.
    destruct (strip_prefix (o :: old') (c :: s)); [discriminate|].
    rewrite (IH H2). reflexivity.
Qed.

Lemma replace_match (old new rest : str) :
  old <> [] -> replace old new (old ++ rest) = new ++ replace old new rest.
Proof.
  destruct old as [|o old']; [congruence|]. intros _.
  apply replace_from_match.
Qed.

Lemma replace_absent (old new s : str) :
  old <> [] -> contains old s = false -> replace old new s = s.
Proof.
  destruct old as [|o old']; [congruence|]. intros _.
  apply replace_from_absent.
Qed.

Lemma replace_skip (o : N) (old' new a b : str) :
  ~ In o a ->
  replace (o :: old') new (a ++ b) = a ++ replace (o :: old') new b.
Proof. apply replace_from_skip. Qed.

(** ** [strip] *)

Lemma lstrip_nonspace (c : N) (s : str) :
  isspace c = false -> lstrip (c :: s) = c :: s.
Proof. intros H; simpl; rewrite H; reflexivity. Qed.

Lemma rstrip_nonspace (s : str) (c : N) :
  isspace c = false -> rstrip (s ++ [c]) = s ++ [c].
Proof.
  intros H; unfold rstrip. rewrite rev_app_distr.
  change (rev [c] ++ rev s) with (c :: rev s).
  rewrite lstrip_nonspace by exact H.
  change (c :: rev s) with (rev [c] ++ rev s).
  rewrite <- rev_app_distr. apply rev_involutive.
Qed.

(** A text that begins and ends with a non-space character is its own
    [strip]. *)
Lemma strip_fixed (a : N) (s : str) (z : N) :
  isspace a = false -> isspace z = false ->
  strip (a :: s ++ [z]) = a :: s ++ [z].
Proof.
  intros Ha Hz; unfold strip. rewrite lstrip_nonspace by exact Ha.
  change (a :: s ++ [z]) with ((a :: s) ++ [z]).
  apply rstrip_nonspace, Hz.
Qed.

End StringFacts.

(* ===================================================================== *)
(** * Emotion-tag parsing *)
(* ===================================================================== *)

Section TagParsing.

Variable llm : list ApiCall -> ApiCall -> Outcome.

Lemma contains_char_absent (c : N) (s : str) :
  contains [c] s = false -> ~ In c s.
Proof.
  induction s as [|x s IH]; intros H; [intros []|].
  cbn [contains] in H. apply orb_false_iff in H as [H1 H2].
  intros [->|Hin]; [|exact (IH H2 Hin)].
  unfold startswith in H1; simpl in H1. rewrite N.eqb_refl in H1.
  discriminate.
Qed.

Lemma absent_in_tag_open (w : str) :
  ~ In RBRACKET w -> ~ In RBRACKET (EMOTION_OPEN ++ w).
Proof.
  intros Hw Hin. apply in_app_or in Hin as [Hin|Hin]; [|exact (Hw Hin)].
  vm_compute in Hin. intuition discriminate.
Qed.

(** The parts of a well-formed answer. *)
Lemma split1_tagged (w r : str) :
  ~ In RBRACKET w ->
  split1 TAG_SEP (EMOTION_OPEN ++ w ++ TAG_SEP ++ r) = [EMOTION_OPEN ++ w; r].
Proof.
  intros Hw. unfold split1.
  rewrite app_assoc.
  change TAG_SEP with (RBRACKET :: [32%N]).
  rewrite split_first_skip by (apply absent_in_tag_open, Hw).
  reflexivity.
Qed.

Lemma parse_emotion_tag_tagged (w r : str) :
  contains [RBRACKET] w = false ->
  contains EMOTION_OPEN w = false ->
  parse_emotion_tag (EMOTION_OPEN ++ w ++ TAG_SEP ++ r) = (r, w).
Proof.
  intros Hb Ho. unfold parse_emotion_tag.
  assert (Hs : startswith EMOTION_TAG (EMOTION_OPEN ++ w ++ TAG_SEP ++ r) = true).
  { change EMOTION_OPEN with (EMOTION_TAG ++ [32%N]).
    rewrite <- app_assoc. apply startswith_app. }
  rewrite Hs, split1_tagged by (apply contains_char_absent, Hb).
  cbn [nth length Nat.ltb Nat.leb].
  f_equal.
  rewrite replace_match by discriminate.
  rewrite (replace_absent EMOTION_OPEN []) by (discriminate || exact Ho).
  apply replace_absent; [discriminate|exact Hb].
Qed.

Lemma parse_emotion_tag_untagged (full_text : str) :
  startswith EMOTION_TAG full_text = false ->
  parse_emotion_tag full_text = (full_text, NEUTRAL_UNKNOWN).
Proof. intros H; unfold parse_emotion_tag; rewrite H; reflexivity. Qed.

Lemma parse_emotion_tag_unseparated (rest : str) :
  contains TAG_SEP (EMOTION_OPEN ++ rest) = false ->
  parse_emotion_tag (EMOTION_OPEN ++ rest) =
  (I_HEAR_YOU, replace [RBRACKET] [] (replace EMOTION_OPEN [] rest)).
Proof.
  intros H. unfold parse_emotion_tag.
  assert (Hs : startswith EMOTION_TAG (EMOTION_OPEN ++ rest) = true).
  { change EMOTION_OPEN with (EMOTION_TAG ++ [32%N]).
    rewrite <- app_assoc. apply startswith_app. }
  rewrite Hs. unfold split1. rewrite (split_first_None _ _ H).
  cbn [nth length Nat.ltb Nat.leb]. f_equal. f_equal.
  apply (replace_match EMOTION_OPEN [] rest). discriminate.
Qed.

(** What [get_ai_response_and_emotion] returns when the request comes back
    with a text. *)
Lemma get_ai_response_text (prompt : str) (s : SessionState) (w : World)
    (c : Chat) (text : str) :
  chat s = Some c ->
  llm (api_log w) (SendMessage c (emotion_prompt prompt)) = Returns (Some text) ->
  fst (get_ai_response_and_emotion llm prompt (s, w)) =
  parse_emotion_tag (strip text).
Proof.
  intros Hc Hl. unfold get_ai_response_and_emotion. rewrite Hc, Hl.
  reflexivity.
Qed.

(** ** C2 *)

(** C2.  When the model answers [[Emotion: w] r] (the text that is parsed is
    the answer without surrounding whitespace, and the word [w] holds no
    closing bracket and no further tag), the answer is cut at the first
    ["] "]: the parts are [[Emotion: w] and [r], the emotion is [w] and the
    response is [r].  For ["[Emotion: Joy] Great to hear!"] this gives the
    emotion ["Joy"] and the response ["Great to hear!"]. *)
Theorem emotion_tag_parsed (prompt : str) (s : SessionState) (wd : World)
    (c : Chat) (text w r : str) :
  chat s = Some c ->
  llm (api_log wd) (SendMessage c (emotion_prompt prompt)) = Returns (Some text) ->
  strip text = EMOTION_OPEN ++ w ++ TAG_SEP ++ r ->
  contains [RBRACKET] w = false ->
  contains EMOTION_OPEN w = false ->
  split1 TAG_SEP (strip text) = [EMOTION_OPEN ++ w; r] /\
  fst (get_ai_response_and_emotion llm prompt (s, wd)) = (r, w) /\
  parse_emotion_tag (lit "[Emotion: Joy] Great to hear!") =
    (lit "Great to hear!", lit "Joy").
Proof.
  intros Hc Hl Ht Hb Ho. split; [|split].
  - rewrite Ht. apply split1_tagged, contains_char_absent, Hb.
  - rewrite (get_ai_response_text prompt s wd c text Hc Hl), Ht.
    apply parse_emotion_tag_tagged; assumption.
  - reflexivity.
Qed.

(** ** C3 *)

(** C3, as amended.  When the text that is parsed (the model's answer
    without surrounding whitespace) does not start with ["[Emotion:"], the
    emotion is ["Neutral/Unknown"] and the response is that whole text; the
    answer is not the error fallback. *)
Theorem missing_tag_falls_back (prompt : str) (s : SessionState) (wd : World)
    (c : Chat) (text : str) :
  chat s = Some c ->
  llm (api_log wd) (SendMessage c (emotion_prompt prompt)) = Returns (Some text) ->
  startswith EMOTION_TAG (strip text) = false ->
  fst (get_ai_response_and_emotion llm prompt (s, wd)) =
    (strip text, NEUTRAL_UNKNOWN) /\
  snd (fst (get_ai_response_and_emotion llm prompt (s, wd))) <> ERROR.
Proof.
  intros Hc Hl Hs.
  rewrite (get_ai_response_text prompt s wd c text Hc Hl).
  rewrite (parse_emotion_tag_untagged _ Hs).
  split; [reflexivity|]. simpl. intros H. vm_compute in H. discriminate.
Qed.

(** ** C10 *)

(** C10, as amended.  When the text that is parsed starts with
    ["[Emotion: "] (tag and space) and holds no ["] "], the response is
    ["I hear you."] and the emotion is the text after that prefix with
    every further ["[Emotion: "] and every ["]"] removed; without a further
    ["[Emotion: "] in it, that is the text after the prefix with every
    ["]"] removed. *)
Theorem tag_without_separator (prompt : str) (s : SessionState) (wd : World)
    (c : Chat) (text rest : str) :
  chat s = Some c ->
  llm (api_log wd) (SendMessage c (emotion_prompt prompt)) = Returns (Some text) ->
  strip text = EMOTION_OPEN ++ rest ->
  contains TAG_SEP (strip text) = false ->
  fst (get_ai_response_and_emotion llm prompt (s, wd)) =
    (I_HEAR_YOU, replace [RBRACKET] [] (replace EMOTION_OPEN [] rest)) /\
  (contains EMOTION_OPEN rest = false ->
   fst (get_ai_response_and_emotion llm prompt (s, wd)) =
     (I_HEAR_YOU, replace [RBRACKET] [] rest)).
Proof.
  intros Hc Hl Ht Hsep.
  rewrite (get_ai_response_text prompt s wd c text Hc Hl), Ht.
  rewrite Ht in Hsep. rewrite (parse_emotion_tag_unseparated _ Hsep).
  split; [reflexivity|].
  intros Ho. do 2 f_equal.
  apply replace_absent; [discriminate|exact Ho].
Qed.

End TagParsing.

Lemma emotion_tag_parsed_joy :
  fst (get_ai_response_and_emotion
         (llm_says (lit "[Emotion: Joy] Great to hear!")) (lit "I passed my exam")
         (ready_session, ready_world))
  = (lit "Great to hear!", lit "Joy").
Proof.
  exact (proj1 (proj2
    (@emotion_tag_parsed (llm_says (lit "[Emotion: Joy] Great to hear!"))
       (lit "I passed my exam") ready_session ready_world chat0
       (lit "[Emotion: Joy] Great to hear!") (lit "Joy") (lit "Great to hear!")
       eq_refl eq_refl eq_refl eq_refl eq_refl))).
Defined.

Lemma missing_tag_falls_back_plain :
  fst (get_ai_response_and_emotion
         (llm_says (lit "  That sounds hard. ")) (lit "rough day")
         (ready_session, ready_world))
  = (lit "That sounds hard.", NEUTRAL_UNKNOWN).
Proof.
  exact (proj1
    (@missing_tag_falls_back (llm_says (lit "  That sounds hard. "))
       (lit "rough day") ready_session ready_world chat0
       (lit "  That sounds hard. ") eq_refl eq_refl eq_refl)).
Defined.

(** C3 as stated fails: the prefix is looked for after [strip()], not in
    the model's output.  The output [" [Emotion: Joy] hi"] does not start
    with ["[Emotion:"] (it starts with a space), and yet its tag is parsed:
    the emotion is ["Joy"], not ["Neutral/Unknown"], and the response is
    ["hi"], not the whole stripped text. *)
Lemma missing_tag_falls_back_counterexample :
  startswith EMOTION_TAG (lit " [Emotion: Joy] hi") = false /\
  fst (get_ai_response_and_emotion (llm_says (lit " [Emotion: Joy] hi"))
         (lit "hello") (ready_session, ready_world))
    = (lit "hi", lit "Joy") /\
  lit "Joy" <> NEUTRAL_UNKNOWN /\
  lit "hi" <> strip (lit " [Emotion: Joy] hi").
Proof.
  repeat split; try reflexivity; intros H; vm_compute in H; discriminate.
Qed.

Lemma tag_without_separator_joy :
  fst (get_ai_response_and_emotion
         (llm_says (lit "[Emotion: Joy]")) (lit "hello")
         (ready_session, ready_world))
  = (I_HEAR_YOU, lit "Joy").
Proof.
  exact (proj2
    (@tag_without_separator (llm_says (lit "[Emotion: Joy]"))
       (lit "hello") ready_session ready_world chat0
       (lit "[Emotion: Joy]") (lit "Joy]") eq_refl eq_refl eq_refl eq_refl)
    eq_refl).
Defined.

(** C10 as stated fails in two ways.  An answer may start with
    ["[Emotion:"] without the space that the removed prefix has: then
    nothing is removed but the bracket, and the emotion is neither the text
    after a prefix ["[Emotion: "] (there is none) nor what follows the
    first ten characters.  And every occurrence of ["[Emotion: "] is
    removed, not only the leading one. *)
Lemma tag_without_separator_counterexample :
  (startswith EMOTION_TAG (lit "[Emotion:Joy]") = true /\
   contains TAG_SEP (lit "[Emotion:Joy]") = false /\
   fst (get_ai_response_and_emotion (llm_says (lit "[Emotion:Joy]"))
          (lit "hello") (ready_session, ready_world))
     = (I_HEAR_YOU, lit "[Emotion:Joy") /\
   (~ exists rest, lit "[Emotion:Joy]" = EMOTION_OPEN ++ rest) /\
   lit "[Emotion:Joy" <>
     replace [RBRACKET] [] (skipn (length EMOTION_OPEN) (lit "[Emotion:Joy]"))) /\
  (startswith EMOTION_TAG (lit "[Emotion: [Emotion: Joy]") = true /\
   contains TAG_SEP (lit "[Emotion: [Emotion: Joy]") = false /\
   lit "[Emotion: [Emotion: Joy]" = EMOTION_OPEN ++ lit "[Emotion: Joy]" /\
   fst (get_ai_response_and_emotion (llm_says (lit "[Emotion: [Emotion: Joy]"))
          (lit "hello") (ready_session, ready_world))
     = (I_HEAR_YOU, lit "Joy") /\
   lit "Joy" <> replace [RBRACKET] [] (lit "[Emotion: Joy]")).
Proof.
  split.
  - repeat split; try reflexivity.
    + intros [rest H]. vm_compute in H. discriminate.
    + intros H. vm_compute in H. discriminate.
  - repeat split; try reflexivity.
    intros H. vm_compute in H. discriminate.
Qed.

(* ===================================================================== *)
(** * The chat turn *)
(* ===================================================================== *)

Section ChatTurn.

Variable lower : str -> str.
Variable json_loads : str -> option json.
Variable llm : list ApiCall -> ApiCall -> Outcome.

(** ** The prologue *)

Lemma manage_chat_session_state_spec (s : SessionState) (w : World) :
  manage_chat_session_state (s, w) =
  match chat s with
  | Some _ => (s, w)
  | None =>
      (set_chat
         (Some (mkChat (chats_created w) MODEL
                  (dynamic_instruction
                     (match ai_persona s with Some p => p | None => [] end))))
         s,
       mkWorld (api_log w) (S (chats_created w)) (screen w))
  end.
Proof.
  unfold manage_chat_session_state; simpl.
  destruct (chat s) eqn:E; [reflexivity|].
  unfold initialize_chat_session, chats_create.
  destruct s as [pa ch ms je jk]; simpl in *.
  destruct ms; reflexivity.
Qed.

Lemma script_prologue_messages (c : Clock) (s : SessionState) (w : World) :
  messages (fst (script_prologue c (s, w))) = messages s.
Proof.
  unfold script_prologue. rewrite manage_chat_session_state_spec.
  destruct s as [pa [ch|] ms je [jk|]]; reflexivity.
Qed.

Lemma script_prologue_journal (c : Clock) (s : SessionState) (w : World) :
  journal_entries (fst (script_prologue c (s, w))) = journal_entries s.
Proof.
  unfold script_prologue. rewrite manage_chat_session_state_spec.
  destruct s as [pa [ch|] ms je [jk|]]; reflexivity.
Qed.

Lemma script_prologue_world (c : Clock) (s : SessionState) (w : World) :
  api_log (snd (script_prologue c (s, w))) = api_log w /\
  screen (snd (script_prologue c (s, w))) = screen w.
Proof.
  unfold script_prologue. rewrite manage_chat_session_state_spec.
  destruct s as [pa [ch|] ms je [jk|]]; split; reflexivity.
Qed.

(** After the prologue there is a chat object: the one of the session, or
    else one created just now. *)
Lemma script_prologue_chat (c : Clock) (s : SessionState) (w : World) :
  chat (fst (script_prologue c (s, w))) =
  match chat s with
  | Some ch => Some ch
  | None =>
      Some (mkChat (chats_created w) MODEL (dynamic_instruction GENTLY_SUPPORTIVE))
  end /\
  chats_created (snd (script_prologue c (s, w))) =
  match chat s with
  | Some _ => chats_created w
  | None => S (chats_created w)
  end.
Proof.
  unfold script_prologue. rewrite manage_chat_session_state_spec.
  destruct s as [pa [ch|] ms je [jk|]]; split; reflexivity.
Qed.

(** ** The three ways through [render_chat_tab] *)

Lemma render_chat_tab_idle (prompt : option str) (s : SessionState) (w : World) :
  prompt = None \/ prompt = Some [] ->
  render_chat_tab lower llm prompt (s, w) = (s, display_history s w, false).
Proof. intros [->| ->]; reflexivity. Qed.

Lemma render_chat_tab_crisis (p : str) (s : SessionState) (w : World) :
  p <> [] -> check_crisis lower p = true ->
  render_chat_tab lower llm (Some p) (s, w) =
  (set_messages
     (messages s ++ [mkMessage user p None]
      ++ [mkMessage assistant crisis_response (Some CRISIS)]) s,
   mkWorld (api_log w) (chats_created w)
     (screen w ++ history_bubbles s
      ++ [ChatBubble user p None; ChatBubble assistant crisis_response None]),
   true).
Proof.
  intros Hp Hc. unfold render_chat_tab.
  destruct p as [|a p]; [congruence|]. rewrite Hc.
  unfold append_message, set_messages, draw, display_history, history_bubbles;
    simpl.
  rewrite <- !app_assoc. reflexivity.
Qed.

Lemma render_chat_tab_answer (p : str) (s : SessionState) (w : World) (c : Chat) :
  p <> [] -> check_crisis lower p = false -> chat s = Some c ->
  let call := SendMessage c (emotion_prompt p) in
  let answer := response_of_outcome (llm (api_log w) call) in
  render_chat_tab lower llm (Some p) (s, w) =
  (set_chat None
     (set_messages
        (messages s ++ [mkMessage user p None]
         ++ [mkMessage assistant (fst answer) (Some (snd answer))]) s),
   mkWorld (api_log w ++ [call]) (chats_created w)
     (screen w ++ history_bubbles s
      ++ [ChatBubble user p None;
          ChatBubble assistant (fst answer) (answer_caption (snd answer))]),
   true).
Proof.
  intros Hp Hc Hch call answer. unfold render_chat_tab.
  destruct p as [|a p]; [congruence|]. rewrite Hc.
  unfold get_ai_response_and_emotion, append_message, set_messages, set_chat,
    draw, display_history, log_call; simpl.
  rewrite Hch. fold call. fold answer.
  destruct answer as [ai_response emotion]; simpl.
  fold (history_bubbles s).
  rewrite <- !app_assoc. reflexivity.
Qed.

(** Without a chat object the turn ends in the fallback, and no request is
    made. *)
Lemma render_chat_tab_no_chat (p : str) (s : SessionState) (w : World) :
  p <> [] -> check_crisis lower p = false -> chat s = None ->
  render_chat_tab lower llm (Some p) (s, w) =
  (set_chat None
     (set_messages
        (messages s ++ [mkMessage user p None]
         ++ [mkMessage assistant CONNECTION_TROUBLE (Some ERROR)]) s),
   mkWorld (api_log w) (chats_created w)
     (screen w ++ history_bubbles s
      ++ [ChatBubble user p None;
          ChatBubble assistant CONNECTION_TROUBLE (Some CONNECTION_FAILED)]),
   true).
Proof.
  intros Hp Hc Hch. unfold render_chat_tab.
  destruct p as [|a p]; [congruence|]. rewrite Hc.
  unfold get_ai_response_and_emotion, append_message, set_messages, set_chat,
    draw, display_history, log_call; simpl.
  rewrite Hch. simpl. fold (history_bubbles s).
  rewrite <- !app_assoc. reflexivity.
Qed.

(** ** C1 *)

Lemma crisis_keyword_found (p keyword : str) :
  In keyword CRISIS_KEYWORDS ->
  (exists pre post, lower p = pre ++ keyword ++ post) ->
  check_crisis lower p = true.
Proof.
  intros Hin Hsub. unfold check_crisis. apply existsb_exists.
  exists keyword. split; [exact Hin|]. apply contains_iff, Hsub.
Qed.

Lemma crisis_keyword_nonempty (keyword : str) :
  In keyword CRISIS_KEYWORDS -> keyword <> [].
Proof.
  unfold CRISIS_KEYWORDS; simpl.
  intros [<-|[<-|[<-|[<-|[<-|[]]]]]]; discriminate.
Qed.

(** C1.  When the lower-cased input holds one of the crisis keywords as a
    substring, the chat tab appends the user's message and the static crisis
    message with the emotion ["Crisis"], draws both, asks for a rerun and
    sends nothing to the model; so does the whole run of the script, which
    stops there. *)
Theorem crisis_short_circuit (i : Input) (s : SessionState) (w : World)
    (p keyword : str) :
  lower [] = [] ->
  chat_input i = Some p ->
  In keyword CRISIS_KEYWORDS ->
  (exists pre post, lower p = pre ++ keyword ++ post) ->
  render_chat_tab lower llm (Some p) (s, w) =
    (set_messages
       (messages s ++ [mkMessage user p None]
        ++ [mkMessage assistant crisis_response (Some CRISIS)]) s,
     mkWorld (api_log w) (chats_created w)
       (screen w ++ history_bubbles s
        ++ [ChatBubble user p None; ChatBubble assistant crisis_response None]),
     true) /\
  (let '(s', w', rerun) := script_run lower json_loads llm i (s, w) in
   messages s' =
     messages s ++ [mkMessage user p None;
                    mkMessage assistant crisis_response (Some CRISIS)] /\
   api_log w' = api_log w /\
   rerun = true).
Proof.
  intros Hnil Hi Hin Hsub.
  assert (Hp : p <> []).
  { intros ->. destruct Hsub as (pre & post & H). rewrite Hnil in H.
    apply (crisis_keyword_nonempty keyword Hin).
    symmetry in H. apply app_eq_nil in H as [_ H].
    apply app_eq_nil in H as [H _]. exact H. }
  assert (Hc := crisis_keyword_found p keyword Hin Hsub).
  split; [apply render_chat_tab_crisis; assumption|].
  unfold script_run. rewrite Hi.
  destruct (script_prologue (clock i) (s, w)) as [s0 w0] eqn:E.
  rewrite (render_chat_tab_crisis p s0 w0 Hp Hc). simpl.
  pose proof (script_prologue_messages (clock i) s w) as Hm.
  pose proof (script_prologue_world (clock i) s w) as [Hl _].
  rewrite E in Hm, Hl; simpl in Hm, Hl.
  rewrite Hm, Hl. repeat split.
Qed.

(** ** C7 *)

(** C7.  When the request of a chat turn raises, the turn still ends: the
    fallback message is appended with the emotion ["Error"] and drawn with
    the connection caption, the chat object is removed from the session,
    and the prologue of the next run puts a newly created one in its
    place. *)
Theorem ai_failure_is_caught (p : str) (s : SessionState) (w : World)
    (c : Chat) (next : Clock) :
  chat s = Some c ->
  chat_id c < chats_created w ->
  p <> [] ->
  check_crisis lower p = false ->
  llm (api_log w) (SendMessage c (emotion_prompt p)) = Raises ->
  let '(s', w', rerun) := render_chat_tab lower llm (Some p) (s, w) in
  messages s' =
    messages s ++ [mkMessage user p None;
                   mkMessage assistant CONNECTION_TROUBLE (Some ERROR)] /\
  screen w' =
    screen w ++ history_bubbles s
    ++ [ChatBubble user p None;
        ChatBubble assistant CONNECTION_TROUBLE (Some CONNECTION_FAILED)] /\
  chat s' = None /\
  rerun = true /\
  (let '(s'', w'') := script_prologue next (s', w') in
   exists c', chat s'' = Some c' /\
              chat_id c' = chats_created w' /\
              chat_id c' <> chat_id c /\
              chats_created w'' = S (chats_created w')).
Proof.
  intros Hch Hid Hp Hc Hl.
  rewrite (render_chat_tab_answer p s w c Hp Hc Hch). rewrite Hl.
  cbn [response_of_outcome fst snd].
  repeat split.
  destruct (script_prologue next _) as [s'' w''] eqn:E.
  match type of E with script_prologue _ (?a, ?b) = _ =>
    pose proof (script_prologue_chat next a b) as [H1 H2] end.
  rewrite E in H1, H2. cbn [fst snd] in H1, H2. simpl in H1, H2.
  eexists. split; [exact H1|]. simpl. repeat split; [lia|exact H2].
Qed.

(** ** C8 *)

Lemma render_chat_tab_extends (prompt : option str) (s : SessionState) (w : World) :
  exists suffix,
    messages (fst (fst (render_chat_tab lower llm prompt (s, w)))) =
    messages s ++ suffix.
Proof.
  destruct prompt as [[|a p]|].
  - exists []. simpl. now rewrite app_nil_r.
  - destruct (check_crisis lower (a :: p)) eqn:Hc.
    + rewrite render_chat_tab_crisis by (congruence || assumption).
      eexists; reflexivity.
    + destruct (chat s) as [c|] eqn:Hch.
      * rewrite (render_chat_tab_answer (a :: p) s w c) by (congruence || assumption).
        eexists; reflexivity.
      * rewrite render_chat_tab_no_chat by (congruence || assumption).
        eexists; reflexivity.
  - exists []. simpl. now rewrite app_nil_r.
Qed.

Lemma render_journal_tab_messages (new_entry : str) (clicked : bool) (c : Clock)
    (s : SessionState) (w : World) :
  messages (fst (fst (render_journal_tab json_loads llm new_entry clicked c (s, w))))
  = messages s.
Proof.
  unfold render_journal_tab. destruct clicked; [|reflexivity].
  destruct (strip new_entry); [reflexivity|].
  unfold analyze_journal_entry.
  destruct (analysis_of_outcome _ _); reflexivity.
Qed.

Lemma script_run_extends (i : Input) (x : SessionState * World) :
  exists suffix,
    messages (fst (fst (script_run lower json_loads llm i x))) =
    messages (fst x) ++ suffix.
Proof.
  destruct x as [s w]. unfold script_run.
  pose proof (script_prologue_messages (clock i) s w) as Hm.
  destruct (script_prologue (clock i) (s, w)) as [s0 w0]. simpl in Hm.
  destruct (render_chat_tab_extends (chat_input i) s0 w0) as [suffix Hs].
  destruct (render_chat_tab lower llm (chat_input i) (s0, w0)) as [[s1 w1] r].
  simpl in Hs. exists suffix. destruct r; cbv iota beta.
  - simpl. now rewrite Hs, Hm.
  - now rewrite render_journal_tab_messages, Hs, Hm.
Qed.

(** C8.  Along any sequence of runs of the script the list of messages
    only grows at its end: what it held before is a prefix of what it holds
    after, and its length does not decrease. *)
Theorem messages_append_only (inputs : list Input) (x : SessionState * World) :
  exists suffix,
    messages (fst (session_run lower json_loads llm inputs x)) =
    messages (fst x) ++ suffix /\
    length (messages (fst x)) <=
    length (messages (fst (session_run lower json_loads llm inputs x))).
Proof.
  revert x; induction inputs as [|i inputs IH]; intros x.
  - exists []. simpl. rewrite app_nil_r. split; [reflexivity|lia].
  - change (session_run lower json_loads llm (i :: inputs) x)
      with (session_run lower json_loads llm inputs
              (fst (script_run lower json_loads llm i x))).
    destruct (script_run_extends i x) as [s1 H1].
    destruct (IH (fst (script_run lower json_loads llm i x))) as [s2 [H2 _]].
    exists (s1 ++ s2). rewrite H2, H1, <- app_assoc.
    split; [reflexivity|]. rewrite !length_app. lia.
Qed.

End ChatTurn.

(* ===================================================================== *)
(** * The journal *)
(* ===================================================================== *)

Section JournalFacts.

Variable json_loads : str -> option json.
Variable llm : list ApiCall -> ApiCall -> Outcome.

(** ** Blank text *)

Lemma lstrip_blank (s : str) : forallb isspace s = true -> lstrip s = [].
Proof.
  induction s as [|c s IH]; simpl; [reflexivity|].
  intros H. apply andb_true_iff in H as [Hc Hs]. rewrite Hc. exact (IH Hs).
Qed.

Lemma lstrip_empty (s : str) : lstrip s = [] -> forallb isspace s = true.
Proof.
  induction s as [|c s IH]; simpl; [reflexivity|].
  destruct (isspace c); [exact IH|discriminate].
Qed.

Lemma lstrip_suffix (s : str) : exists pre, s = pre ++ lstrip s /\ forallb isspace pre = true.
Proof.
  induction s as [|c s (pre & IH & Hpre)]; [now exists []|].
  simpl. destruct (isspace c) eqn:Hc.
  - exists (c :: pre). simpl. rewrite Hc, Hpre. split; [now rewrite <- IH|reflexivity].
  - now exists [].
Qed.

Lemma forallb_rev (f : N -> bool) (s : str) :
  forallb f (rev s) = forallb f s.
Proof.
  induction s as [|c s IH]; [reflexivity|].
  simpl. rewrite forallb_app, IH. simpl. rewrite andb_true_r. apply andb_comm.
Qed.

(** [strip] returns the empty string exactly on the texts made of
    whitespace only. *)
Lemma strip_empty_iff (s : str) :
  strip s = [] <-> forallb isspace s = true.
Proof.
  unfold strip, rstrip. split.
  - intros H.
    assert (H1 : lstrip (rev (lstrip s)) = []).
    { rewrite <- (rev_involutive (lstrip (rev (lstrip s)))), H. reflexivity. }
    apply lstrip_empty in H1. rewrite forallb_rev in H1.
    destruct (lstrip_suffix s) as (pre & E & Hpre).
    rewrite E, forallb_app, Hpre, H1. reflexivity.
  - intros H. rewrite (lstrip_blank s H). reflexivity.
Qed.

(** ** The journal store *)

Lemma journal_get_append_same (day : str) (e : JournalEntry) (j : Journal) :
  journal_mem day j = true ->
  journal_get day (journal_append day e j) = journal_get day j ++ [e].
Proof.
  induction j as [|[d es] j IH]; simpl; [discriminate|].
  destruct (eqb d day) eqn:E; simpl; rewrite E; [reflexivity|].
  exact IH.
Qed.

Lemma journal_get_append_other (day d' : str) (e : JournalEntry) (j : Journal) :
  d' <> day ->
  journal_get d' (journal_append day e j) = journal_get d' j.
Proof.
  intros Hne. induction j as [|[d es] j IH]; simpl; [reflexivity|].
  destruct (eqb d day) eqn:E; simpl.
  - apply eqb_eq in E. subst d.
    destruct (eqb day d') eqn:E'; [|reflexivity].
    apply eqb_eq in E'. congruence.
  - destruct (eqb d d'); [reflexivity|exact IH].
Qed.

Lemma journal_get_new_day (day d' : str) (j : Journal) :
  journal_mem day j = false ->
  journal_get d' (j ++ [(day, [])]) = journal_get d' j.
Proof.
  induction j as [|[d es] j IH]; simpl.
  - intros _. destruct (eqb day d'); reflexivity.
  - intros H. apply orb_false_iff in H as [_ H].
    destruct (eqb d d'); [reflexivity|exact (IH H)].
Qed.

Lemma journal_mem_new_day (day : str) (j : Journal) :
  journal_mem day (j ++ [(day, [])]) = true.
Proof.
  induction j as [|[d es] j IH]; simpl.
  - rewrite eqb_refl. reflexivity.
  - rewrite IH. apply orb_true_r.
Qed.

Lemma journal_store_same (day : str) (e : JournalEntry) (j : Journal) :
  journal_get day (journal_store day e j) = journal_get day j ++ [e].
Proof.
  unfold journal_store. destruct (journal_mem day j) eqn:E.
  - apply journal_get_append_same, E.
  - rewrite journal_get_append_same by apply journal_mem_new_day.
    rewrite journal_get_new_day by exact E. reflexivity.
Qed.

Lemma journal_store_other (day d' : str) (e : JournalEntry) (j : Journal) :
  d' <> day ->
  journal_get d' (journal_store day e j) = journal_get d' j.
Proof.
  intros Hne. unfold journal_store.
  rewrite journal_get_append_other by exact Hne.
  destruct (journal_mem day j) eqn:E; [reflexivity|].
  apply journal_get_new_day, E.
Qed.

(** ** The [Save Entry] handler *)

Lemma render_journal_tab_saves (new_entry : str) (c : Clock)
    (s : SessionState) (w : World) :
  strip new_entry <> [] ->
  let call := GenerateContent MODEL (analysis_prompt (strip new_entry)) in
  let analysis := analysis_of_outcome json_loads (llm (api_log w) call) in
  render_journal_tab json_loads llm new_entry true c (s, w) =
  (set_journal_entry_key (now_iso c ++ ENTRY_SUFFIX)
     (set_journal_entries
        (journal_store (today c)
           (mkJournalEntry (now_stamp c) (strip new_entry)
              (fst analysis) (snd analysis))
           (journal_entries s)) s),
   mkWorld (api_log w ++ [call]) (chats_created w)
     (screen w ++ [SuccessSaved (snd analysis)]),
   true).
Proof.
  intros Hne. cbv zeta.
  unfold render_journal_tab, analyze_journal_entry, journal_store.
  destruct (strip new_entry) as [|a t]; [congruence|].
  destruct (analysis_of_outcome _ _) as [summary sentiment].
  reflexivity.
Qed.

(** ** C5 *)

(** C5.  When the entry holds a character that is not whitespace and the
    analysis comes back as a text that [json.loads] rejects, saving goes
    through: the day's list gains, at its end, an entry with the stripped
    text, the summary ["Could not generate summary."] and the sentiment
    ["Analysis Error"]; the other days are untouched and the success notice
    is drawn. *)
Theorem unparseable_analysis_still_saves (new_entry : str) (c : Clock)
    (s : SessionState) (w : World) (text : str) :
  forallb isspace new_entry = false ->
  llm (api_log w) (GenerateContent MODEL (analysis_prompt (strip new_entry)))
    = Returns (Some text) ->
  json_loads (json_text text) = None ->
  let '(s', w', rerun) := render_journal_tab json_loads llm new_entry true c (s, w) in
  journal_get (today c) (journal_entries s') =
    journal_get (today c) (journal_entries s)
    ++ [mkJournalEntry (now_stamp c) (strip new_entry)
          (JString (lit "Could not generate summary."))
          (JString (lit "Analysis Error"))] /\
  (forall d, d <> today c ->
     journal_get d (journal_entries s') = journal_get d (journal_entries s)) /\
  screen w' = screen w ++ [SuccessSaved (JString (lit "Analysis Error"))] /\
  rerun = true.
Proof.
  intros Hb Hl Hj.
  assert (Hne : strip new_entry <> []).
  { intros H. apply strip_empty_iff in H. congruence. }
  rewrite (render_journal_tab_saves new_entry c s w Hne). rewrite Hl.
  unfold analysis_of_outcome. rewrite Hj.
  cbn [fst snd analysis_fallback journal_entries set_journal_entry_key
       set_journal_entries screen].
  repeat split.
  - apply journal_store_same.
  - intros d Hd. apply journal_store_other, Hd.
Qed.

(** ** C9 *)

(** C9.  When the entry is empty or made of whitespace only, the handler
    leaves the whole session as it was, sends nothing to the model and draws
    the warning, nothing else; the run of the script that carries this click
    ends with the same journal and the same list of requests. *)
Theorem blank_entry_not_saved (lower : str -> str) (i : Input)
    (s : SessionState) (w : World) :
  forallb isspace (journal_text i) = true ->
  save_clicked i = true ->
  chat_input i = None ->
  render_journal_tab json_loads llm (journal_text i) true (clock i) (s, w) =
    (s, mkWorld (api_log w) (chats_created w)
          (screen w ++ [Warning (lit "Journal entry cannot be empty.")]),
     true) /\
  (let '(s', w', rerun) := script_run lower json_loads llm i (s, w) in
   journal_entries s' = journal_entries s /\ api_log w' = api_log w).
Proof.
  intros Hb Hclick Hchat.
  apply strip_empty_iff in Hb.
  assert (R : forall s0 w0,
             render_journal_tab json_loads llm (journal_text i) true (clock i) (s0, w0)
             = (s0, mkWorld (api_log w0) (chats_created w0)
                      (screen w0 ++ [Warning EMPTY_ENTRY_WARNING]), true)).
  { intros s0 w0. unfold render_journal_tab. rewrite Hb. reflexivity. }
  split; [apply R|].
  unfold script_run. rewrite Hchat, Hclick.
  pose proof (script_prologue_journal (clock i) s w) as Hj.
  pose proof (script_prologue_world (clock i) s w) as [Hl _].
  destruct (script_prologue (clock i) (s, w)) as [s0 w0].
  cbn [fst snd] in Hj, Hl.
  rewrite (render_chat_tab_idle lower llm None s0 w0 (or_introl eq_refl)).
  cbv iota beta. rewrite R. simpl. split; assumption.
Qed.

End JournalFacts.

(* ===================================================================== *)
(** * Journal analysis *)
(* ===================================================================== *)

Section Analysis.

Variable json_loads : str -> option json.
Variable llm : list ApiCall -> ApiCall -> Outcome.

(** ** Removing the fence markers *)

(** A pattern that fails on [body] and holds no [o] fails on [body]
    followed by [o]. *)
Lemma strip_prefix_app_tail (p body tail : str) (o : N) :
  ~ In o p -> strip_prefix p body = None ->
  strip_prefix p (body ++ o :: tail) = None.
Proof.
  revert body; induction p as [|a p IH]; intros body Ho H; [discriminate|].
  destruct body as [|b body]; simpl in *.
  - destruct (N.eqb_spec a o) as [->|]; [|reflexivity].
    exfalso; apply Ho; now left.
  - destruct (N.eqb a b); [|reflexivity].
    apply IH; [|exact H]. intros Hin; apply Ho; now right.
Qed.

Lemma strip_prefix_split (p q s r : str) :
  strip_prefix (p ++ q) s = Some r -> strip_prefix p s = Some (q ++ r).
Proof.
  intros H. apply strip_prefix_Some in H. subst s.
  rewrite <- app_assoc. apply strip_prefix_app.
Qed.

Lemma contains_head (k s : str) :
  contains k s = false -> strip_prefix k s = None.
Proof.
  intros H. destruct s; cbn [contains] in H;
    apply orb_false_iff in H as [H _]; unfold startswith in H;
    match type of H with
    | match ?x with _ => _ end = _ => destruct x; [discriminate|reflexivity]
    end.
Qed.

Lemma contains_tail (k : str) (c : N) (s : str) :
  contains k (c :: s) = false -> contains k s = false.
Proof.
  intros H. cbn [contains] in H. apply orb_false_iff in H as [_ H]. exact H.
Qed.

(** When a text without fence marker, followed by a closing marker, starts
    with a marker, the text is one or two backticks, or empty. *)
Lemma fence_straddle (body rest : str) :
  contains FENCE body = false ->
  strip_prefix FENCE (body ++ FENCE) = Some rest ->
  body = [] \/ body = [BACKTICK] \/ body = [BACKTICK; BACKTICK].
Proof.
  intros Hc H. apply contains_head in Hc.
  change FENCE with [BACKTICK; BACKTICK; BACKTICK] in H, Hc.
  destruct body as [|a [|b [|c t]]]; [now left| | |]; cbn [app] in H.
  - right; left. rewrite strip_prefix_cons in H.
    destruct (N.eqb_spec BACKTICK a); [subst; reflexivity|discriminate].
  - right; right. rewrite !strip_prefix_cons in H.
    destruct (N.eqb_spec BACKTICK a); [subst|discriminate].
    destruct (N.eqb_spec BACKTICK b); [subst; reflexivity|discriminate].
  - exfalso. rewrite !strip_prefix_cons in H, Hc.
    destruct (N.eqb BACKTICK a); [|discriminate].
    destruct (N.eqb BACKTICK b); [|discriminate].
    destruct (N.eqb BACKTICK c); discriminate.
Qed.

(** The closing marker is removed, and nothing else. *)
Lemma replace_closing_fence (body : str) :
  contains FENCE body = false ->
  replace FENCE [] (body ++ FENCE) = body.
Proof.
  induction body as [|c t IH]; intros H; [reflexivity|].
  destruct (strip_prefix FENCE ((c :: t) ++ FENCE)) as [rest|] eqn:E.
  - destruct (fence_straddle (c :: t) rest H E) as [E'|[E'|E']];
      [discriminate| |]; rewrite E'; reflexivity.
  - change (replace FENCE [] ((c :: t) ++ FENCE))
      with (replace_from BACKTICK (tl FENCE) [] (c :: (t ++ FENCE))).
    rewrite replace_from_cons.
    change (strip_prefix (BACKTICK :: tl FENCE) (c :: t ++ FENCE))
      with (strip_prefix FENCE ((c :: t) ++ FENCE)).
    rewrite E. f_equal. apply IH. exact (contains_tail FENCE c t H).
Qed.

(** No [```json] arises from a text without fence marker and the closing
    marker after it. *)
Lemma fence_json_not_in_tail (body : str) :
  contains FENCE body = false ->
  contains FENCE_JSON (body ++ FENCE) = false.
Proof.
  assert (Hd : forall b, contains FENCE b = false ->
                         startswith FENCE_JSON (b ++ FENCE) = false).
  { intros b Hb. unfold startswith.
    destruct (strip_prefix FENCE_JSON (b ++ FENCE)) as [r|] eqn:E;
      [|reflexivity].
    exfalso.
    pose proof (strip_prefix_split FENCE (lit "json") (b ++ FENCE) r E) as E1.
    destruct (fence_straddle b _ Hb E1) as [->|[->| ->]];
      vm_compute in E; discriminate. }
  induction body as [|c t IH]; intros H; [reflexivity|].
  change ((c :: t) ++ FENCE) with (c :: (t ++ FENCE)).
  cbn [contains].
  change (c :: (t ++ FENCE)) with ((c :: t) ++ FENCE).
  rewrite (Hd (c :: t) H), (IH (contains_tail FENCE c t H)). reflexivity.
Qed.

Lemma fence_json_absent (body : str) :
  contains FENCE body = false ->
  startswith (lit "json") body = false ->
  startswith [BACKTICK] body = false ->
  replace FENCE_JSON [] (FENCE ++ body ++ FENCE) = FENCE ++ body ++ FENCE.
Proof.
  intros Hf Hj Hb.
  assert (H0 : strip_prefix (lit "json") (body ++ FENCE) = None).
  { apply (strip_prefix_app_tail (lit "json") body (tl FENCE) BACKTICK).
    - vm_compute. intuition discriminate.
    - unfold startswith in Hj.
      destruct (strip_prefix (lit "json") body); [discriminate|reflexivity]. }
  assert (H1 : forall p, strip_prefix (BACKTICK :: p) (body ++ FENCE) = None
                          \/ body = []).
  { intros p. destruct body as [|b body]; [now right|left].
    apply strip_prefix_head. intros ->.
    unfold startswith in Hb. simpl in Hb. discriminate. }
  apply replace_absent; [discriminate|].
  change (FENCE ++ body ++ FENCE)
    with (BACKTICK :: BACKTICK :: BACKTICK :: body ++ FENCE).
  cbn [contains]. unfold startswith.
  replace (strip_prefix FENCE_JSON
             (BACKTICK :: BACKTICK :: BACKTICK :: body ++ FENCE))
    with (@None str) by (symmetry; exact H0).
  replace (strip_prefix FENCE_JSON (BACKTICK :: BACKTICK :: body ++ FENCE))
    with (@None str).
  2:{ symmetry. destruct (H1 (lit "json")) as [H| ->]; [exact H|reflexivity]. }
  replace (strip_prefix FENCE_JSON (BACKTICK :: body ++ FENCE))
    with (@None str).
  2:{ symmetry. destruct (H1 (BACKTICK :: lit "json")) as [H| ->];
        [exact H|reflexivity]. }
  cbn [orb]. apply fence_json_not_in_tail, Hf.
Qed.

(** The text handed to [json.loads] when the answer is a fenced block
    around a text without fence marker. *)
Lemma json_text_fenced (text opener body : str) :
  fence_opener opener body ->
  strip text = opener ++ body ++ FENCE ->
  contains FENCE body = false ->
  json_text text = strip body.
Proof.
  intros Hopen Ht Hb. unfold json_text. rewrite Ht.
  assert (E : replace FENCE [] (replace FENCE_JSON [] (opener ++ body ++ FENCE))
              = body).
  { destruct Hopen as [->|(-> & Hj & Hk)].
    - rewrite replace_match by discriminate.
      change ([] ++ ?x) with x.
      rewrite (replace_absent FENCE_JSON [] (body ++ FENCE))
        by (discriminate || apply fence_json_not_in_tail, Hb).
      apply replace_closing_fence, Hb.
    - rewrite (fence_json_absent body Hb Hj Hk).
      rewrite replace_match by discriminate.
      apply replace_closing_fence, Hb. }
  rewrite E. reflexivity.
Qed.

(** ** C4 *)

(** C4.  When the analysis comes back as a fenced block (opened by
    [```json] or by a bare [```], closed by [```], around a text that holds
    no fence marker itself) and the text inside decodes to an object with
    the members ['summary'] and ['sentiment'], then [json.loads] receives
    the inside of the block and [analyze_journal_entry] returns the two
    member values. *)
Theorem fenced_analysis_is_unwrapped (entry text opener body : str) (w : World)
    (members : list (str * json)) (v_summary v_sentiment : json) :
  llm (api_log w) (GenerateContent MODEL (analysis_prompt entry))
    = Returns (Some text) ->
  fence_opener opener body ->
  strip text = opener ++ body ++ FENCE ->
  contains FENCE body = false ->
  json_loads (strip body) = Some (JObject members) ->
  dict_get (lit "summary") members = Some v_summary ->
  dict_get (lit "sentiment") members = Some v_sentiment ->
  json_text text = strip body /\
  fst (analyze_journal_entry json_loads llm entry w) = (v_summary, v_sentiment).
Proof.
  intros Hl Hopen Ht Hb Hj Hsum Hsent.
  pose proof (json_text_fenced text opener body Hopen Ht Hb) as E.
  split; [exact E|].
  unfold analyze_journal_entry, analysis_of_outcome. cbn [fst].
  rewrite Hl, E, Hj. unfold dict_get_default. rewrite Hsum, Hsent.
  reflexivity.
Qed.

End Analysis.

Lemma fenced_analysis_is_unwrapped_calm :
  fst (analyze_journal_entry FlatJson.loads (llm_says calm_answer)
         (lit "A quiet day.") new_world)
  = (JString (lit "..."), JString (lit "Calm")).
Proof.
  exact (proj2
    (fenced_analysis_is_unwrapped FlatJson.loads (llm_says calm_answer)
       (lit "A quiet day.") calm_answer FENCE_JSON
       (LF ++ FlatJson.jlit "{'summary':'...','sentiment':'Calm'}" ++ LF)
       new_world
       [(lit "summary", JString (lit "...")); (lit "sentiment", JString (lit "Calm"))]
       (JString (lit "...")) (JString (lit "Calm"))
       eq_refl (or_introl eq_refl) eq_refl eq_refl eq_refl eq_refl eq_refl)).
Defined.

(* ===================================================================== *)
(** * Frequency tables *)
(* ===================================================================== *)

Section CounterFacts.

Lemma counter_add_keys (k : str) (c : Table) (l : str) :
  In l (map fst (counter_add k c)) <-> In l (map fst c) \/ l = k.
Proof.
  induction c as [|[k' n] c IH]; simpl.
  - intuition.
  - destruct (eqb k' k) eqn:E; simpl.
    + apply eqb_eq in E. subst k'. intuition.
    + rewrite IH. intuition.
Qed.

Lemma counter_add_NoDup (k : str) (c : Table) :
  NoDup (map fst c) -> NoDup (map fst (counter_add k c)).
Proof.
  induction c as [|[k' n] c IH]; simpl; intros H.
  - constructor; [intros []|constructor].
  - inversion H as [|? ? Hnotin Hnd]; subst.
    destruct (eqb k' k) eqn:E; simpl.
    + constructor; assumption.
    + constructor; [|exact (IH Hnd)].
      rewrite counter_add_keys. intros [Hin| ->]; [exact (Hnotin Hin)|].
      rewrite eqb_refl in E. discriminate.
Qed.

Lemma counter_add_count (k : str) (c : Table) (l : str) :
  table_count l (counter_add k c) =
  if eqb l k then S (table_count l c) else table_count l c.
Proof.
  induction c as [|[k' n] c IH]; simpl.
  - destruct (eqb k l) eqn:E.
    + apply eqb_eq in E. subst. now rewrite eqb_refl.
    + destruct (eqb l k) eqn:E'; [|reflexivity].
      apply eqb_eq in E'. subst. rewrite eqb_refl in E. discriminate.
  - destruct (eqb k' k) eqn:E; simpl.
    + apply eqb_eq in E. subst k'.
      destruct (eqb k l) eqn:E1.
      * apply eqb_eq in E1. subst. now rewrite eqb_refl.
      * destruct (eqb l k) eqn:E2; [|reflexivity].
        apply eqb_eq in E2. subst. rewrite eqb_refl in E1. discriminate.
    + destruct (eqb k' l) eqn:E1.
      * apply eqb_eq in E1. subst k'.
        destruct (eqb l k) eqn:E2; [congruence|reflexivity].
      * exact IH.
Qed.

(** A row of a table without repeated labels is the first row of its
    label. *)
Lemma table_count_In (t : Table) (l : str) (n : nat) :
  NoDup (map fst t) ->
  (In (l, n) t <-> In l (map fst t) /\ table_count l t = n).
Proof.
  induction t as [|[k m] t IH]; simpl; intros H.
  - intuition.
  - inversion H as [|? ? Hnotin Hnd]; subst.
    destruct (eqb k l) eqn:E.
    + apply eqb_eq in E. subst k. split.
      * intros [Heq|Hin].
        -- inversion Heq; subst. auto.
        -- exfalso. apply Hnotin. apply (in_map fst) in Hin. exact Hin.
      * intros [_ ->]. now left.
    + apply eqb_neq in E. rewrite (IH Hnd). split.
      * intros [Heq|[Hin Hc]]; [inversion Heq; congruence|auto].
      * intros [[Heq|Hin] Hc]; [congruence|auto].
Qed.

Lemma fold_counter_keys (labels : list str) (c : Table) (l : str) :
  In l (map fst (fold_left (fun c k => counter_add k c) labels c)) <->
  In l (map fst c) \/ In l labels.
Proof.
  revert c; induction labels as [|k labels IH]; intros c; simpl.
  - intuition.
  - rewrite IH, counter_add_keys. intuition.
Qed.

Lemma fold_counter_NoDup (labels : list str) (c : Table) :
  NoDup (map fst c) ->
  NoDup (map fst (fold_left (fun c k => counter_add k c) labels c)).
Proof.
  revert c; induction labels as [|k labels IH]; intros c H; simpl.
  - exact H.
  - apply IH, counter_add_NoDup, H.
Qed.

Lemma fold_counter_count (labels : list str) (c : Table) (l : str) :
  table_count l (fold_left (fun c k => counter_add k c) labels c) =
  table_count l c + occurrences l labels.
Proof.
  revert c; induction labels as [|k labels IH]; intros c; simpl.
  - unfold occurrences; simpl; lia.
  - rewrite IH, counter_add_count. unfold occurrences; simpl.
    destruct (eqb l k); simpl; lia.
Qed.

(** [Counter] lists every distinct label once, with its number of
    occurrences. *)
Lemma Counter_spec (labels : list str) :
  NoDup (map fst (Counter labels)) /\
  forall l n, In (l, n) (Counter labels) <->
              In l labels /\ n = occurrences l labels.
Proof.
  assert (Hnd : NoDup (map fst (Counter labels))).
  { apply fold_counter_NoDup. constructor. }
  split; [exact Hnd|].
  intros l n. rewrite (table_count_In (Counter labels) l n Hnd).
  unfold Counter. rewrite fold_counter_keys, fold_counter_count. simpl.
  intuition.
Qed.

(** ** The two lists of labels *)

Lemma chat_emotions_spec (msgs : list Message) :
  emotions_present msgs = true ->
  chat_emotions msgs = Some (filter chat_kept (chat_labels msgs)).
Proof.
  induction msgs as [|m msgs IH]; [reflexivity|].
  intros H. apply andb_true_iff in H as [Hm Hrest].
  specialize (IH Hrest).
  cbn [chat_emotions chat_labels flat_map].
  fold (chat_labels msgs).
  destruct (msg_role m); [exact IH|].
  destruct (msg_emotion m) as [e|]; [|discriminate].
  rewrite IH. cbn [app filter]. fold (chat_kept e).
  destruct (chat_kept e); reflexivity.
Qed.

Lemma collect_sentiment_text (l : str) :
  collect_sentiment (JString l) = Some (if journal_kept l then Some l else None).
Proof.
  destruct l as [|a l]; [reflexivity|].
  unfold journal_kept. change (eqb (a :: l) []) with false.
  cbn [negb andb]. reflexivity.
Qed.

Lemma collect_entries_spec (es : list JournalEntry) :
  forallb (fun e => match je_sentiment e with
                    | JString _ => true
                    | _ => false
                    end) es = true ->
  collect_entries es = Some (filter journal_kept (entry_labels es)).
Proof.
  induction es as [|e es IH]; [reflexivity|].
  intros H. cbn [forallb] in H. apply andb_true_iff in H as [He Hrest].
  cbn [collect_entries entry_labels flat_map]. fold (entry_labels es).
  rewrite (IH Hrest).
  destruct (je_sentiment e) as [| | |l| |]; try discriminate.
  rewrite collect_sentiment_text. cbn [app filter].
  destruct (journal_kept l); reflexivity.
Qed.

Lemma journal_sentiments_spec (j : Journal) :
  sentiments_are_text j = true ->
  journal_sentiments j = Some (filter journal_kept (journal_labels j)).
Proof.
  induction j as [|[d es] j IH]; [reflexivity|].
  intros H. unfold sentiments_are_text in H. cbn [forallb snd] in H.
  apply andb_true_iff in H as [Hd Hrest].
  cbn [journal_sentiments].
  rewrite (collect_entries_spec es Hd), (IH Hrest).
  unfold journal_labels. cbn [flat_map snd]. rewrite filter_app. reflexivity.
Qed.

End CounterFacts.

Section FrequencyTables.

Variable sort_values : Table -> Table.
Hypothesis sort_values_perm : forall t, Permutation t (sort_values t).
Hypothesis sort_values_sorted : forall t, Sorted count_ge (sort_values t).

Lemma frequency_table_spec (labels : list str) :
  NoDup (map fst (frequency_table sort_values labels)) /\
  (forall l n, In (l, n) (frequency_table sort_values labels) <->
               In l labels /\ n = occurrences l labels) /\
  StronglySorted count_ge (frequency_table sort_values labels).
Proof.
  unfold frequency_table.
  destruct (Counter_spec labels) as [Hnd Hin].
  pose proof (sort_values_perm (Counter labels)) as P.
  split; [|split].
  - apply (Permutation_NoDup (Permutation_map fst P)), Hnd.
  - intros l n. rewrite <- Hin. split.
    + apply Permutation_in, Permutation_sym, P.
    + apply Permutation_in, P.
  - apply Sorted_StronglySorted; [|apply sort_values_sorted].
    intros a b c Hab Hbc. unfold count_ge in *. lia.
Qed.

Lemma frequency_table_example :
  frequency_table sort_values [JOY; JOY; SADNESS] = [(JOY, 2); (SADNESS, 1)].
Proof.
  unfold frequency_table.
  pose proof (sort_values_perm (Counter [JOY; JOY; SADNESS])) as P.
  pose proof (sort_values_sorted (Counter [JOY; JOY; SADNESS])) as S.
  change (Counter [JOY; JOY; SADNESS]) with [(JOY, 2); (SADNESS, 1)] in *.
  apply Permutation_length_2_inv in P as [P|P]; [exact P|].
  rewrite P in S. apply Sorted_inv in S as [_ S]. apply HdRel_inv in S.
  unfold count_ge in S; simpl in S. lia.
Qed.

(** ** C6 *)

(** C6, as amended.  In a session whose assistant messages all carry an
    emotion and whose journal sentiments are all texts, the chat list holds
    the emotion labels other than ['Neutral/Unknown'], ['Error'] and
    ['Crisis'], and the journal list holds the sentiment labels other than
    the empty text, ['Analysis Error'] and ['Unknown'].  The table drawn for
    a list of labels has one row per distinct label, with the number of its
    occurrences, and every row counts at least as much as the rows below
    it; these are the tables of the insights tab.  For [Joy, Joy, Sadness] the rows are (Joy, 2),
    (Sadness, 1). *)
Theorem frequency_tables (s : SessionState) :
  emotions_present (messages s) = true ->
  sentiments_are_text (journal_entries s) = true ->
  let emotions := filter chat_kept (chat_labels (messages s)) in
  let sentiments := filter journal_kept (journal_labels (journal_entries s)) in
  chat_emotions (messages s) = Some emotions /\
  journal_sentiments (journal_entries s) = Some sentiments /\
  render_insights_tab sort_values s =
    match emotions, journal_entries s with
    | [], [] => Some None
    | _, _ => Some (Some (insights_of sort_values emotions sentiments))
    end /\
  (forall labels,
     NoDup (map fst (frequency_table sort_values labels)) /\
     (forall l n, In (l, n) (frequency_table sort_values labels) <->
                  In l labels /\ n = occurrences l labels) /\
     StronglySorted count_ge (frequency_table sort_values labels)) /\
  frequency_table sort_values [JOY; JOY; SADNESS] = [(JOY, 2); (SADNESS, 1)].
Proof.
  intros Hm Hj emotions sentiments.
  pose proof (chat_emotions_spec (messages s) Hm) as E1.
  pose proof (journal_sentiments_spec (journal_entries s) Hj) as E2.
  fold emotions in E1. fold sentiments in E2.
  split; [exact E1|]. split; [exact E2|]. split; [|split].
  - unfold render_insights_tab. rewrite E1, E2.
    destruct emotions, (journal_entries s); reflexivity.
  - apply frequency_table_spec.
  - apply frequency_table_example.
Qed.

End FrequencyTables.

(** ** The stable sort meets the contract of [sort_values] *)

Lemma sort_by_count_perm (t : Table) : Permutation t (sort_by_count t).
Proof. apply CountSort.Permuted_sort. Qed.

Lemma sort_by_count_sorted (t : Table) : Sorted count_ge (sort_by_count t).
Proof.
  pose proof (CountSort.Sorted_sort t) as H. unfold sort_by_count.
  induction H as [|a l Hs IH Hd]; constructor; [exact IH|].
  destruct Hd as [|b l Hab]; constructor.
  unfold count_ge. apply Nat.leb_le. exact Hab.
Qed.

Lemma frequency_tables_mixed :
  chat_emotions (messages mixed_session) = Some [JOY; JOY; SADNESS] /\
  render_insights_tab sort_by_count mixed_session =
    Some (Some (mkInsights (Some [(JOY, 2); (SADNESS, 1)])
                  (Some [(lit "Calm", 1)]) (Some JOY) (lit "Calm"))).
Proof.
  pose proof (frequency_tables sort_by_count sort_by_count_perm
                sort_by_count_sorted mixed_session eq_refl eq_refl) as H.
  cbv zeta in H. destruct H as (H1 & _ & H3 & _).
  split; [exact H1|]. rewrite H3. reflexivity.
Defined.

(** C6 as stated fails on the journal side: a saved entry whose sentiment
    is the empty text is a label outside the two listed ones, yet it is not
    counted, and no table is drawn for it. *)
Lemma frequency_tables_counterexample :
  journal_labels (journal_entries blank_sentiment_session) = [[]] /\
  filter journal_kept_as_claimed
    (journal_labels (journal_entries blank_sentiment_session)) = [[]] /\
  frequency_table sort_by_count [[]] = [([], 1)] /\
  journal_sentiments (journal_entries blank_sentiment_session) = Some [] /\
  journal_sentiments (journal_entries blank_sentiment_session) <>
    Some (filter journal_kept_as_claimed
            (journal_labels (journal_entries blank_sentiment_session))) /\
  option_map (option_map df_sentiments)
    (render_insights_tab sort_by_count blank_sentiment_session) =
    Some (Some None).
Proof.
  repeat split; try reflexivity.
  intros H. vm_compute in H. discriminate.
Qed.

(* ===================================================================== *)
(** * The handlers on concrete sessions *)
(* ===================================================================== *)

(** Chat objects stay counted along a session, so a chat object created
    later differs from every earlier one. *)
Lemma script_run_chat_counted (lower : str -> str)
    (json_loads : str -> option json) (llm : list ApiCall -> ApiCall -> Outcome)
    (i : Input) (x : SessionState * World) :
  chat_counted x -> chat_counted (fst (script_run lower json_loads llm i x)).
Proof.
  destruct x as [s w]. unfold chat_counted; cbn [fst snd]. intros H.
  unfold script_run.
  pose proof (script_prologue_chat (clock i) s w) as [Hc Hn].
  destruct (script_prologue (clock i) (s, w)) as [s0 w0]. cbn [fst snd] in Hc, Hn.
  assert (H0 : forall c, chat s0 = Some c -> chat_id c < chats_created w0).
  { intros c Hs0. rewrite Hc in Hs0. rewrite Hn.
    destruct (chat s) as [ch|].
    - inversion Hs0; subst. now apply H.
    - inversion Hs0; subst. simpl. lia. }
  clear Hc Hn H.
  assert (J : forall w1 c,
            chats_created w1 = chats_created w0 ->
            chat (fst (fst (render_journal_tab json_loads llm (journal_text i)
                              (save_clicked i) (clock i) (s0, w1)))) = Some c ->
            chat_id c <
            chats_created
              (snd (fst (render_journal_tab json_loads llm (journal_text i)
                           (save_clicked i) (clock i) (s0, w1))))).
  { intros w1 c Hw. unfold render_journal_tab, analyze_journal_entry.
    destruct (save_clicked i); [|cbn; rewrite Hw; apply H0].
    destruct (strip (journal_text i)); [cbn; rewrite Hw; apply H0|].
    destruct (analysis_of_outcome _ _). cbn. rewrite Hw. apply H0. }
  intros c.
  destruct (chat_input i) as [[|a p]|].
  - rewrite (render_chat_tab_idle lower llm (@Some str []) s0 w0) by now right.
    apply J. reflexivity.
  - destruct (check_crisis lower (a :: p)) eqn:Ec.
    + rewrite render_chat_tab_crisis by (congruence || assumption).
      apply H0.
    + destruct (chat s0) as [c0|] eqn:Ech.
      * rewrite (render_chat_tab_answer lower llm (a :: p) s0 w0 c0)
          by (congruence || assumption).
        cbn. discriminate.
      * rewrite render_chat_tab_no_chat by (congruence || assumption).
        cbn. discriminate.
  - rewrite (render_chat_tab_idle lower llm None s0 w0) by now left.
    apply J. reflexivity.
Qed.

Lemma session_run_chat_counted (lower : str -> str)
    (json_loads : str -> option json) (llm : list ApiCall -> ApiCall -> Outcome)
    (inputs : list Input) :
  chat_counted (session_run lower json_loads llm inputs (new_session, new_world)).
Proof.
  assert (G : forall x, chat_counted x ->
                        chat_counted (session_run lower json_loads llm inputs x)).
  { induction inputs as [|i inputs IH]; intros x Hx; [exact Hx|].
    apply IH, script_run_chat_counted, Hx. }
  apply G. intros c H. discriminate.
Qed.

Lemma crisis_short_circuit_witness :
  let '(s', w', rerun) :=
    script_run ascii_lower FlatJson.loads llm_down crisis_input
      (new_session, new_world) in
  messages s' =
    [mkMessage user (lit "I want to End My Life") None;
     mkMessage assistant crisis_response (Some CRISIS)] /\
  api_log w' = [] /\
  rerun = true.
Proof.
  exact (proj2
    (crisis_short_circuit ascii_lower FlatJson.loads llm_down crisis_input
       new_session new_world (lit "I want to End My Life") (lit "end my life")
       eq_refl eq_refl (or_intror (or_intror (or_introl eq_refl)))
       (ex_intro _ (lit "i want to ") (ex_intro _ [] eq_refl)))).
Defined.

Lemma ai_failure_is_caught_witness :
  let '(s', w', rerun) :=
    render_chat_tab ascii_lower llm_down (Some (lit "hello"))
      (ready_session, ready_world) in
  messages s' =
    [mkMessage user (lit "hello") None;
     mkMessage assistant CONNECTION_TROUBLE (Some ERROR)] /\
  chat s' = None /\
  api_log w' = [SendMessage chat0 (emotion_prompt (lit "hello"))].
Proof.
  pose proof (ai_failure_is_caught ascii_lower llm_down (lit "hello")
                ready_session ready_world chat0 a_clock eq_refl) as H.
  assert (H1 : chat_id chat0 < chats_created ready_world) by (simpl; lia).
  assert (H2 : lit "hello" <> []) by discriminate.
  specialize (H H1 H2 eq_refl eq_refl).
  destruct (render_chat_tab ascii_lower llm_down (Some (lit "hello"))
              (ready_session, ready_world)) as [[s' w'] rerun] eqn:E.
  destruct H as (Hm & _ & Hc & _).
  split; [exact Hm|]. split; [exact Hc|].
  vm_compute in E. inversion E. reflexivity.
Defined.

Lemma unparseable_analysis_still_saves_witness :
  let '(s', w', rerun) :=
    render_journal_tab FlatJson.loads (llm_says (lit "Sorry, I cannot help."))
      (lit " A long day. ") true a_clock (ready_session, ready_world) in
  journal_get (lit "2025-01-31") (journal_entries s') =
    [mkJournalEntry (lit "2025-01-31 09:30:00") (lit "A long day.")
       (JString (lit "Could not generate summary."))
       (JString (lit "Analysis Error"))] /\
  rerun = true.
Proof.
  pose proof (unparseable_analysis_still_saves FlatJson.loads
                (llm_says (lit "Sorry, I cannot help.")) (lit " A long day. ")
                a_clock ready_session ready_world (lit "Sorry, I cannot help.")
                eq_refl eq_refl eq_refl) as H.
  destruct (render_journal_tab _ _ _ _ _ _) as [[s' w'] rerun].
  destruct H as (H1 & _ & _ & H4). split; [exact H1|exact H4].
Defined.

Lemma blank_entry_not_saved_witness :
  render_journal_tab FlatJson.loads llm_down (journal_text blank_save) true
    (clock blank_save) (ready_session, ready_world) =
  (ready_session,
   mkWorld [] 1 [Warning (lit "Journal entry cannot be empty.")], true).
Proof.
  exact (proj1
    (blank_entry_not_saved FlatJson.loads llm_down ascii_lower blank_save
       ready_session ready_world eq_refl eq_refl eq_refl)).
Defined.

(* ===================================================================== *)
(** * Further properties of the chat turn *)
(* ===================================================================== *)

Section ChatProperties.

Variable lower : str -> str.
Variable json_loads : str -> option json.
Variable llm : list ApiCall -> ApiCall -> Outcome.

(** X1.  [check_crisis] answers [True] exactly when some keyword of
    [CRISIS_KEYWORDS] occurs in the lower-cased text. *)
Theorem crisis_check_exact (text : str) :
  check_crisis lower text = true <->
  exists keyword pre post,
    In keyword CRISIS_KEYWORDS /\ lower text = pre ++ keyword ++ post.
Proof.
  unfold check_crisis. rewrite existsb_exists. split.
  - intros (k & Hin & Hc). apply contains_iff in Hc as (pre & post & E).
    now exists k, pre, post.
  - intros (k & pre & post & Hin & E). exists k. split; [exact Hin|].
    apply contains_iff. now exists pre, post.
Qed.

(** ** Requests per run *)

Lemma render_journal_tab_calls (new_entry : str) (clicked : bool) (c : Clock)
    (s : SessionState) (w : World) :
  api_log (snd (fst (render_journal_tab json_loads llm new_entry clicked c (s, w))))
  = api_log w
    ++ (if clicked then
          match strip new_entry with
          | [] => []
          | _ :: _ => [GenerateContent MODEL (analysis_prompt (strip new_entry))]
          end
        else []).
Proof.
  unfold render_journal_tab, analyze_journal_entry.
  destruct clicked; [|now rewrite app_nil_r].
  destruct (strip new_entry); [simpl; now rewrite app_nil_r|].
  destruct (analysis_of_outcome _ _). reflexivity.
Qed.

(** X2.  One run of the script sends at most one request to the model: the
    chat request on the session's chat object when a non-crisis message
    arrives, otherwise the analysis request when a non-blank entry is
    saved, and nothing in any other case. *)
Theorem run_sends_at_most_one_request (i : Input) (s : SessionState) (w : World) :
  api_log (snd (fst (script_run lower json_loads llm i (s, w)))) =
    api_log w ++ run_calls lower i s w /\
  length (run_calls lower i s w) <= 1.
Proof.
  split.
  2:{ unfold run_calls. destruct (chat_input i) as [[|a p]|];
      try (destruct (check_crisis lower (a :: p)); simpl; lia);
      destruct (save_clicked i); simpl; try lia;
      destruct (strip (journal_text i)); simpl; lia. }
  unfold script_run, run_calls.
  pose proof (script_prologue_world (clock i) s w) as [Hl _].
  pose proof (script_prologue_chat (clock i) s w) as [Hc _].
  destruct (script_prologue (clock i) (s, w)) as [s0 w0].
  cbn [fst snd] in Hl, Hc.
  destruct (chat_input i) as [[|a p]|].
  - rewrite (render_chat_tab_idle lower llm (@Some str []) s0 w0) by now right.
    cbv iota beta. rewrite render_journal_tab_calls. simpl. now rewrite Hl.
  - destruct (check_crisis lower (a :: p)) eqn:Ec.
    + rewrite render_chat_tab_crisis by (congruence || assumption).
      simpl. now rewrite Hl, app_nil_r.
    + destruct (chat s0) as [c0|] eqn:Ech.
      * rewrite (render_chat_tab_answer lower llm (a :: p) s0 w0 c0)
          by (congruence || assumption).
        cbn [fst snd api_log]. rewrite Hl. do 2 f_equal.
        destruct (chat s); congruence.
      * destruct (chat s); discriminate.
  - rewrite (render_chat_tab_idle lower llm None s0 w0) by now left.
    cbv iota beta. rewrite render_journal_tab_calls. simpl. now rewrite Hl.
Qed.

(** ** Chat objects *)

(** X5.  A run that handles a chat message ends without chat object when
    the message was sent to the model, and with the chat object it started
    from (the session's, or one created at the top of the run) when the
    crisis message was shown instead. *)
Theorem chat_object_after_turn (i : Input) (s : SessionState) (w : World)
    (p : str) :
  chat_input i = Some p -> p <> [] ->
  chat (fst (fst (script_run lower json_loads llm i (s, w)))) =
  if check_crisis lower p then
    match chat s with
    | Some c => Some c
    | None => Some (mkChat (chats_created w) MODEL
                      (dynamic_instruction GENTLY_SUPPORTIVE))
    end
  else None.
Proof.
  intros Hi Hp. unfold script_run. rewrite Hi.
  pose proof (script_prologue_chat (clock i) s w) as [Hc _].
  destruct (script_prologue (clock i) (s, w)) as [s0 w0]. cbn [fst] in Hc.
  destruct (check_crisis lower p) eqn:Ec.
  - rewrite render_chat_tab_crisis by assumption. simpl. exact Hc.
  - destruct (chat s0) as [c0|] eqn:Ech.
    + rewrite (render_chat_tab_answer lower llm p s0 w0 c0) by assumption.
      reflexivity.
    + rewrite render_chat_tab_no_chat by assumption. reflexivity.
Qed.

Lemma render_journal_tab_created (new_entry : str) (clicked : bool) (c : Clock)
    (s : SessionState) (w : World) :
  chats_created
    (snd (fst (render_journal_tab json_loads llm new_entry clicked c (s, w))))
  = chats_created w.
Proof.
  unfold render_journal_tab, analyze_journal_entry.
  destruct clicked; [|reflexivity].
  destruct (strip new_entry); [reflexivity|].
  destruct (analysis_of_outcome _ _). reflexivity.
Qed.

(** X6.  A run of the script creates a chat object exactly when the
    session holds none at its start, and then only one. *)
Theorem chat_created_on_demand (i : Input) (s : SessionState) (w : World) :
  chats_created (snd (fst (script_run lower json_loads llm i (s, w)))) =
  match chat s with
  | Some _ => chats_created w
  | None => S (chats_created w)
  end.
Proof.
  unfold script_run.
  pose proof (script_prologue_chat (clock i) s w) as [Hc Hn].
  destruct (script_prologue (clock i) (s, w)) as [s0 w0]. cbn [fst snd] in Hc, Hn.
  rewrite <- Hn. clear Hn.
  destruct (chat_input i) as [[|a p]|].
  - rewrite (render_chat_tab_idle lower llm (@Some str []) s0 w0) by now right.
    cbv iota beta. now rewrite render_journal_tab_created.
  - destruct (check_crisis lower (a :: p)) eqn:Ec.
    + rewrite render_chat_tab_crisis by (congruence || assumption).
      reflexivity.
    + destruct (chat s0) as [c0|] eqn:Ech.
      * rewrite (render_chat_tab_answer lower llm (a :: p) s0 w0 c0)
          by (congruence || assumption).
        reflexivity.
      * rewrite render_chat_tab_no_chat by (congruence || assumption).
        reflexivity.
  - rewrite (render_chat_tab_idle lower llm None s0 w0) by now left.
    cbv iota beta. now rewrite render_journal_tab_created.
Qed.

(** ** The shape of the message list *)

Lemma turns_app (l m : list Message) :
  turns l = true -> turns (l ++ m) = turns m.
Proof.
  revert l.
  assert (G : forall n l, length l <= n -> turns l = true ->
                          turns (l ++ m) = turns m).
  { induction n as [|n IH]; intros l Hn Ht.
    - destruct l; [reflexivity|simpl in Hn; lia].
    - destruct l as [|u [|a l]]; [reflexivity|discriminate|].
      cbn [turns app] in Ht |- *.
      destruct (msg_role u), (msg_emotion u), (msg_role a), (msg_emotion a);
        try discriminate.
      apply IH; [simpl in Hn; lia|exact Ht]. }
  intros l. apply (G (length l)). lia.
Qed.

Lemma render_chat_tab_turns (prompt : option str) (s : SessionState) (w : World) :
  turns (messages s) = true ->
  turns (messages (fst (fst (render_chat_tab lower llm prompt (s, w))))) = true.
Proof.
  intros Ht. destruct prompt as [[|a p]|]; try exact Ht.
  destruct (check_crisis lower (a :: p)) eqn:Ec.
  - rewrite render_chat_tab_crisis by (congruence || assumption).
    cbn [fst messages set_messages]. now rewrite turns_app.
  - destruct (chat s) as [c0|] eqn:Ech.
    + rewrite (render_chat_tab_answer lower llm (a :: p) s w c0)
        by (congruence || assumption).
      cbn [fst messages set_messages set_chat]. now rewrite turns_app.
    + rewrite render_chat_tab_no_chat by (congruence || assumption).
      cbn [fst messages set_messages set_chat]. now rewrite turns_app.
Qed.

Lemma script_run_turns (i : Input) (x : SessionState * World) :
  turns (messages (fst x)) = true ->
  turns (messages (fst (fst (script_run lower json_loads llm i x)))) = true.
Proof.
  destruct x as [s w]. cbn [fst]. intros Ht. unfold script_run.
  pose proof (script_prologue_messages (clock i) s w) as Hm.
  destruct (script_prologue (clock i) (s, w)) as [s0 w0]. cbn [fst] in Hm.
  rewrite <- Hm in Ht.
  pose proof (render_chat_tab_turns (chat_input i) s0 w0 Ht) as H.
  destruct (render_chat_tab lower llm (chat_input i) (s0, w0)) as [[s1 w1] r].
  cbn [fst] in H. destruct r; cbv iota beta; [exact H|].
  now rewrite render_journal_tab_messages.
Qed.

Lemma session_run_turns (inputs : list Input) (x : SessionState * World) :
  turns (messages (fst x)) = true ->
  turns (messages (fst (session_run lower json_loads llm inputs x))) = true.
Proof.
  revert x; induction inputs as [|i inputs IH]; intros x Hx; [exact Hx|].
  apply (IH (fst (script_run lower json_loads llm i x))), script_run_turns, Hx.
Qed.

(** X3.  Whatever the inputs of a session, its list of messages is a
    sequence of turns: a user message without emotion, followed by an
    assistant message that carries one. *)
Theorem messages_are_turns (inputs : list Input) :
  turns (messages (fst (session_run lower json_loads llm inputs
                          (new_session, new_world)))) = true.
Proof. apply session_run_turns. reflexivity. Qed.

Lemma turns_emotions_present (msgs : list Message) :
  turns msgs = true -> emotions_present msgs = true.
Proof.
  assert (G : forall n l, length l <= n -> turns l = true ->
                          emotions_present l = true).
  { induction n as [|n IH]; intros l Hn Ht.
    - destruct l; [reflexivity|simpl in Hn; lia].
    - destruct l as [|u [|a l]]; [reflexivity|discriminate|].
      cbn [turns] in Ht. unfold emotions_present. cbn [forallb].
      destruct (msg_role u), (msg_emotion u), (msg_role a), (msg_emotion a);
        try discriminate.
      cbn [andb]. apply IH; [simpl in Hn; lia|exact Ht]. }
  apply (G (length msgs)). lia.
Qed.

(** X4.  In every session the list comprehension of the insights tab goes
    through (no assistant message lacks its emotion): it yields the
    emotions of the assistant messages other than ['Neutral/Unknown'],
    ['Error'] and ['Crisis'], in order. *)
Theorem chat_emotions_defined (inputs : list Input) :
  let s := fst (session_run lower json_loads llm inputs (new_session, new_world)) in
  chat_emotions (messages s) = Some (filter chat_kept (chat_labels (messages s))).
Proof.
  cbv zeta. apply chat_emotions_spec, turns_emotions_present, session_run_turns.
  reflexivity.
Qed.

(** ** Turns that leave the statistics alone *)

Lemma chat_emotions_app (l m : list Message) :
  chat_emotions (l ++ m) =
  match chat_emotions l, chat_emotions m with
  | Some a, Some b => Some (a ++ b)
  | _, _ => None
  end.
Proof.
  induction l as [|x l IH]; cbn [app chat_emotions].
  - destruct (chat_emotions m); reflexivity.
  - destruct (msg_role x); [exact IH|].
    destruct (msg_emotion x); [|reflexivity].
    rewrite IH.
    destruct (negb (mem_str s CHAT_EXCLUDED)), (chat_emotions l),
      (chat_emotions m); reflexivity.
Qed.

Lemma chat_emotions_excluded_turn (l : list Message) (p answer emotion : str) :
  mem_str emotion CHAT_EXCLUDED = true ->
  chat_emotions
    (l ++ [mkMessage user p None] ++ [mkMessage assistant answer (Some emotion)])
  = chat_emotions l.
Proof.
  intros H. rewrite chat_emotions_app. cbn [app chat_emotions msg_role msg_emotion].
  rewrite H. cbn [negb]. destruct (chat_emotions l); [|reflexivity].
  now rewrite app_nil_r.
Qed.

(** X14.  A chat turn adds nothing to the emotions that the insights tab
    counts when the crisis message was shown, when the request failed or
    came back without text, and when the answer carries no emotion tag. *)
Theorem uninformative_turn_not_counted (p : str) (s : SessionState) (w : World)
    (c : Chat) :
  p <> [] ->
  chat s = Some c ->
  check_crisis lower p = true \/
  (check_crisis lower p = false /\
   (llm (api_log w) (SendMessage c (emotion_prompt p)) = Raises \/
    llm (api_log w) (SendMessage c (emotion_prompt p)) = Returns None \/
    exists text,
      llm (api_log w) (SendMessage c (emotion_prompt p)) = Returns (Some text) /\
      startswith EMOTION_TAG (strip text) = false)) ->
  chat_emotions
    (messages (fst (fst (render_chat_tab lower llm (Some p) (s, w)))))
  = chat_emotions (messages s).
Proof.
  intros Hp Hch [Hc|[Hc Ho]].
  - rewrite render_chat_tab_crisis by assumption.
    cbn [fst messages set_messages]. now apply chat_emotions_excluded_turn.
  - rewrite (render_chat_tab_answer lower llm p s w c) by assumption.
    cbn [fst messages set_messages set_chat].
    apply chat_emotions_excluded_turn.
    destruct Ho as [->|[->|(text & -> & Hs)]]; try reflexivity.
    cbn [response_of_outcome]. rewrite (parse_emotion_tag_untagged _ Hs).
    reflexivity.
Qed.

(** ** What the history shows of a turn *)

(** X15.  After a message was sent to the model, what the turn has drawn is
    what the history of the next run draws: the old messages, the user's
    message and the answer under the same caption.  The crisis message is
    drawn without caption by the turn, and under
    ["**Detected Emotion:** Crisis"] by the history. *)
Theorem history_shows_turn (p : str) (s : SessionState) (w : World) :
  p <> [] ->
  let '(s', w', _) := render_chat_tab lower llm (Some p) (s, w) in
  if check_crisis lower p then
    screen w' =
      screen w ++ history_bubbles s
      ++ [ChatBubble user p None; ChatBubble assistant crisis_response None] /\
    history_bubbles s' =
      history_bubbles s
      ++ [ChatBubble user p None;
          ChatBubble assistant crisis_response (Some (DETECTED_EMOTION ++ CRISIS))]
  else screen w' = screen w ++ history_bubbles s'.
Proof.
  intros Hp. destruct (check_crisis lower p) eqn:Ec.
  - rewrite render_chat_tab_crisis by assumption. split; [reflexivity|].
    unfold history_bubbles. cbn [messages set_messages].
    rewrite map_app. reflexivity.
  - assert (G : forall answer emotion,
              history_caption (mkMessage assistant answer (Some emotion))
              = answer_caption emotion) by reflexivity.
    destruct (chat s) as [c0|] eqn:Ech.
    + rewrite (render_chat_tab_answer lower llm p s w c0) by assumption.
      unfold history_bubbles. cbn [messages set_messages set_chat screen].
      rewrite map_app. cbn [map app msg_role msg_content]. rewrite G.
      reflexivity.
    + rewrite render_chat_tab_no_chat by assumption.
      unfold history_bubbles. cbn [messages set_messages set_chat screen].
      rewrite map_app. reflexivity.
Qed.

End ChatProperties.

(* ===================================================================== *)
(** * Further properties of the tag parsing *)
(* ===================================================================== *)

Section TagProperties.

Lemma strip_prefix_app_r (p x y r : str) :
  strip_prefix p x = Some r -> strip_prefix p (x ++ y) = Some (r ++ y).
Proof.
  intros H. apply strip_prefix_Some in H. subst x.
  rewrite <- app_assoc. apply strip_prefix_app.
Qed.

(** [split_first] cuts at an occurrence of the separator, and the part in
    front of the cut holds none. *)
Lemma split_first_Some (sep s a b : str) :
  sep <> [] ->
  split_first sep s = Some (a, b) ->
  s = a ++ sep ++ b /\ contains sep a = false.
Proof.
  intros Hsep. revert a b.
  induction s as [|c s IH]; intros a b H; unfold split_first in H;
    fold split_first in H.
  - destruct (strip_prefix sep []) as [rest|] eqn:E; [|discriminate].
    inversion H; subst. apply strip_prefix_Some in E.
    destruct sep; [congruence|discriminate].
  - destruct (strip_prefix sep (c :: s)) as [rest|] eqn:E.
    + inversion H; subst. apply strip_prefix_Some in E. split; [exact E|].
      destruct sep; [congruence|reflexivity].
    + destruct (split_first sep s) as [[a' b']|] eqn:E'; [|discriminate].
      inversion H; subst. destruct (IH a' b eq_refl) as [Hs Hc].
      split; [now rewrite Hs|].
      cbn [contains]. rewrite Hc, orb_false_r. unfold startswith.
      destruct (strip_prefix sep (c :: a')) as [r|] eqn:E2; [|reflexivity].
      apply (strip_prefix_app_r sep (c :: a') (sep ++ b)) in E2.
      rewrite Hs in E. cbn [app] in E2. congruence.
Qed.

Lemma replace_char_absent (c : N) (s : str) :
  contains [c] (replace [c] [] s) = false.
Proof.
  unfold replace. induction s as [|x s IH]; [reflexivity|].
  rewrite replace_from_cons, strip_prefix_cons.
  destruct (N.eqb_spec c x) as [->|Hne].
  - cbn [strip_prefix app]. exact IH.
  - cbn [contains]. rewrite IH, orb_false_r.
    unfold startswith. rewrite strip_prefix_cons.
    destruct (N.eqb_spec c x); [congruence|reflexivity].
Qed.

(** X7.  For a text that starts with ["[Emotion:"] and holds the separator
    ["] "], the text is what stands before the first separator, the
    separator, and the response; the emotion is taken from what stands
    before the separator and holds no ["]"]. *)
Theorem tagged_answer_splits (full_text : str) :
  startswith EMOTION_TAG full_text = true ->
  contains TAG_SEP full_text = true ->
  exists head,
    full_text = head ++ TAG_SEP ++ fst (parse_emotion_tag full_text) /\
    contains TAG_SEP head = false /\
    snd (parse_emotion_tag full_text) =
      replace [RBRACKET] [] (replace EMOTION_OPEN [] head) /\
    contains [RBRACKET] (snd (parse_emotion_tag full_text)) = false.
Proof.
  intros Hs Hc. unfold parse_emotion_tag. rewrite Hs. unfold split1.
  destruct (split_first TAG_SEP full_text) as [[a b]|] eqn:E.
  - destruct (split_first_Some TAG_SEP full_text a b) as [H1 H2];
      [discriminate|exact E|].
    exists a. cbn [nth length Nat.ltb Nat.leb fst snd].
    repeat split; try assumption. apply replace_char_absent.
  - exfalso. clear Hs.
    induction full_text as [|c t IH].
    + vm_compute in Hc. discriminate.
    + unfold split_first in E; fold split_first in E.
      destruct (strip_prefix TAG_SEP (c :: t)) eqn:E1; [discriminate|].
      destruct (split_first TAG_SEP t) as [[a' b']|] eqn:E2; [discriminate|].
      cbn [contains] in Hc. unfold startswith in Hc. rewrite E1 in Hc.
      apply IH; [exact Hc|reflexivity].
Qed.

End TagProperties.

(* ===================================================================== *)
(** * Further properties of the journal *)
(* ===================================================================== *)

Section JournalProperties.

Variable json_loads : str -> option json.
Variable llm : list ApiCall -> ApiCall -> Outcome.

(** X8.  Saving an entry that holds a character other than whitespace,
    whatever the model answers: the day's list gains exactly one entry, at
    its end, with the clock's timestamp and the stripped text; the other
    days keep their lists; one analysis request is sent; the key of the
    text area is renewed; messages and chat object stay. *)
Theorem save_appends_entry (new_entry : str) (c : Clock)
    (s : SessionState) (w : World) :
  forallb isspace new_entry = false ->
  let '(s', w', rerun) := render_journal_tab json_loads llm new_entry true c (s, w) in
  (exists summary sentiment,
     journal_get (today c) (journal_entries s') =
       journal_get (today c) (journal_entries s)
       ++ [mkJournalEntry (now_stamp c) (strip new_entry) summary sentiment]) /\
  (forall d, d <> today c ->
     journal_get d (journal_entries s') = journal_get d (journal_entries s)) /\
  api_log w' =
    api_log w ++ [GenerateContent MODEL (analysis_prompt (strip new_entry))] /\
  journal_entry_key s' = Some (now_iso c ++ lit "_entry") /\
  messages s' = messages s /\ chat s' = chat s /\ rerun = true.
Proof.
  intros Hb.
  assert (Hne : strip new_entry <> []).
  { intros H. apply strip_empty_iff in H. congruence. }
  rewrite (render_journal_tab_saves json_loads llm new_entry c s w Hne).
  cbn [journal_entries set_journal_entry_key set_journal_entries api_log
       journal_entry_key messages chat].
  repeat split.
  - eexists _, _. apply journal_store_same.
  - intros d Hd. apply journal_store_other, Hd.
Qed.

(** ** One list per date *)

Lemma journal_mem_In (day : str) (j : Journal) :
  journal_mem day j = true <-> In day (map fst j).
Proof.
  induction j as [|[d es] j IH]; simpl; [split; [discriminate|tauto]|].
  rewrite orb_true_iff, IH, eqb_eq. tauto.
Qed.

Lemma journal_append_keys (day : str) (e : JournalEntry) (j : Journal) :
  map fst (journal_append day e j) = map fst j.
Proof.
  induction j as [|[d es] j IH]; simpl; [reflexivity|].
  destruct (eqb d day); simpl; [reflexivity|now rewrite IH].
Qed.

Lemma journal_store_keys (day : str) (e : JournalEntry) (j : Journal) :
  map fst (journal_store day e j) =
  if journal_mem day j then map fst j else map fst j ++ [day].
Proof.
  unfold journal_store. rewrite journal_append_keys.
  destruct (journal_mem day j); [reflexivity|].
  rewrite map_app. reflexivity.
Qed.

Lemma journal_store_NoDup (day : str) (e : JournalEntry) (j : Journal) :
  NoDup (map fst j) -> NoDup (map fst (journal_store day e j)).
Proof.
  intros H. rewrite journal_store_keys.
  destruct (journal_mem day j) eqn:E; [exact H|].
  apply NoDup_app; [exact H|constructor; [intros []|constructor]|].
  intros x Hx [<-|[]]. apply journal_mem_In in Hx. congruence.
Qed.

Lemma render_journal_tab_journal (new_entry : str) (clicked : bool) (c : Clock)
    (s : SessionState) (w : World) :
  let j' := journal_entries
              (fst (fst (render_journal_tab json_loads llm new_entry clicked c (s, w)))) in
  j' = journal_entries s \/
  exists e, je_timestamp e = now_stamp c /\
            j' = journal_store (today c) e (journal_entries s).
Proof.
  cbv zeta. destruct clicked; [|now left].
  destruct (strip new_entry) as [|a t] eqn:E.
  - left. unfold render_journal_tab. rewrite E. reflexivity.
  - right.
    rewrite (render_journal_tab_saves json_loads llm new_entry c s w)
      by (rewrite E; discriminate).
    eexists. split; [|reflexivity]. reflexivity.
Qed.

Lemma script_run_journal (lower : str -> str) (i : Input) (s : SessionState)
    (w : World) :
  let j' := journal_entries (fst (fst (script_run lower json_loads llm i (s, w)))) in
  j' = journal_entries s \/
  exists e, je_timestamp e = now_stamp (clock i) /\
            j' = journal_store (today (clock i)) e (journal_entries s).
Proof.
  cbv zeta. unfold script_run.
  pose proof (script_prologue_journal (clock i) s w) as Hj.
  destruct (script_prologue (clock i) (s, w)) as [s0 w0]. cbn [fst] in Hj.
  rewrite <- Hj.
  destruct (chat_input i) as [[|a p]|].
  - rewrite (render_chat_tab_idle lower llm (@Some str []) s0 w0) by now right.
    apply render_journal_tab_journal.
  - left. destruct (check_crisis lower (a :: p)) eqn:Ec.
    + rewrite render_chat_tab_crisis by (congruence || assumption).
      reflexivity.
    + destruct (chat s0) as [c0|] eqn:Ech.
      * rewrite (render_chat_tab_answer lower llm (a :: p) s0 w0 c0)
          by (congruence || assumption).
        reflexivity.
      * rewrite render_chat_tab_no_chat by (congruence || assumption).
        reflexivity.
  - rewrite (render_chat_tab_idle lower llm None s0 w0) by now left.
    apply render_journal_tab_journal.
Qed.

(** X9.  Whatever the inputs of a session, its journal holds one list per
    date: no date occurs twice among the keys. *)
Theorem journal_dates_distinct (lower : str -> str) (inputs : list Input) :
  NoDup (map fst (journal_entries
                    (fst (session_run lower json_loads llm inputs
                            (new_session, new_world))))).
Proof.
  assert (G : forall x, NoDup (map fst (journal_entries (fst x))) ->
                        NoDup (map fst (journal_entries
                                          (fst (session_run lower json_loads llm
                                                  inputs x))))).
  { induction inputs as [|i inputs IH]; intros x Hx; [exact Hx|].
    apply (IH (fst (script_run lower json_loads llm i x))).
    destruct x as [s w]. cbn [fst] in Hx |- *.
    destruct (script_run_journal lower i s w) as [->|(e & _ & ->)];
      [exact Hx|apply journal_store_NoDup, Hx]. }
  apply G. constructor.
Qed.

(** ** Entries without sentiment *)

Lemma collect_entries_app (a b : list JournalEntry) :
  collect_entries (a ++ b) =
  match collect_entries a, collect_entries b with
  | Some x, Some y => Some (x ++ y)
  | _, _ => None
  end.
Proof.
  induction a as [|e a IH]; cbn [app collect_entries].
  - destruct (collect_entries b); reflexivity.
  - rewrite IH.
    destruct (collect_sentiment (je_sentiment e)) as [[l|]|],
      (collect_entries a), (collect_entries b); reflexivity.
Qed.

Lemma journal_sentiments_app (a b : Journal) :
  journal_sentiments (a ++ b) =
  match journal_sentiments a, journal_sentiments b with
  | Some x, Some y => Some (x ++ y)
  | _, _ => None
  end.
Proof.
  induction a as [|[d es] a IH]; cbn [app journal_sentiments].
  - destruct (journal_sentiments b); reflexivity.
  - rewrite IH.
    destruct (collect_entries es), (journal_sentiments a),
      (journal_sentiments b); try reflexivity.
    now rewrite app_assoc.
Qed.

Lemma journal_sentiments_append_skipped (day : str) (e : JournalEntry)
    (j : Journal) :
  collect_sentiment (je_sentiment e) = Some None ->
  journal_sentiments (journal_append day e j) = journal_sentiments j.
Proof.
  intros He. induction j as [|[d es] j IH]; cbn [journal_append]; [reflexivity|].
  destruct (eqb d day); cbn [journal_sentiments].
  - rewrite collect_entries_app. cbn [collect_entries]. rewrite He.
    destruct (collect_entries es); [|reflexivity].
    now rewrite app_nil_r.
  - now rewrite IH.
Qed.

Lemma journal_sentiments_store_skipped (day : str) (e : JournalEntry)
    (j : Journal) :
  collect_sentiment (je_sentiment e) = Some None ->
  journal_sentiments (journal_store day e j) = journal_sentiments j.
Proof.
  intros He. unfold journal_store.
  rewrite journal_sentiments_append_skipped by exact He.
  destruct (journal_mem day j); [reflexivity|].
  rewrite journal_sentiments_app. cbn [journal_sentiments collect_entries].
  destruct (journal_sentiments j); [|reflexivity].
  now rewrite !app_nil_r.
Qed.

Lemma no_sentiment_placeholder (o : Outcome) :
  no_sentiment json_loads o = true ->
  snd (analysis_of_outcome json_loads o) = ANALYSIS_ERROR \/
  snd (analysis_of_outcome json_loads o) = UNKNOWN.
Proof.
  unfold no_sentiment, analysis_of_outcome.
  destruct o as [[text|]|]; try (now left).
  destruct (json_loads (json_text text)) as [[| | | | |members]|];
    try (now left).
  unfold dict_get_default.
  destruct (dict_get (lit "sentiment") members); [discriminate|now right].
Qed.

(** X10.  When the analysis gives no sentiment of its own (the request
    fails, its text does not decode to an object, or the object has no
    ['sentiment']), the saved entry carries ['Analysis Error'] or
    ['Unknown'], and the sentiments that the insights tab counts are the
    same after the save as before. *)
Theorem entry_without_sentiment_not_counted (new_entry : str) (c : Clock)
    (s : SessionState) (w : World) :
  forallb isspace new_entry = false ->
  no_sentiment json_loads
    (llm (api_log w) (GenerateContent MODEL (analysis_prompt (strip new_entry))))
    = true ->
  let s' := fst (fst (render_journal_tab json_loads llm new_entry true c (s, w))) in
  (exists summary sentiment,
     (sentiment = JString (lit "Analysis Error") \/
      sentiment = JString (lit "Unknown")) /\
     journal_get (today c) (journal_entries s') =
       journal_get (today c) (journal_entries s)
       ++ [mkJournalEntry (now_stamp c) (strip new_entry) summary sentiment]) /\
  journal_sentiments (journal_entries s') = journal_sentiments (journal_entries s).
Proof.
  intros Hb Hn. cbv zeta.
  assert (Hne : strip new_entry <> []).
  { intros H. apply strip_empty_iff in H. congruence. }
  rewrite (render_journal_tab_saves json_loads llm new_entry c s w Hne).
  cbn [fst journal_entries set_journal_entry_key set_journal_entries].
  pose proof (no_sentiment_placeholder _ Hn) as Hp.
  split.
  - eexists _, _. split; [exact Hp|]. apply journal_store_same.
  - apply journal_sentiments_store_skipped. cbn [je_sentiment].
    destruct Hp as [-> | ->]; reflexivity.
Qed.

(** ** Answers without fence *)

Lemma lstrip_idempotent (s : str) : lstrip (lstrip s) = lstrip s.
Proof.
  induction s as [|c s IH]; [reflexivity|].
  simpl. destruct (isspace c) eqn:E; [exact IH|].
  simpl. now rewrite E.
Qed.

Lemma rstrip_prefix (s : str) :
  exists tail, s = rstrip s ++ tail /\ forallb isspace tail = true.
Proof.
  unfold rstrip. destruct (lstrip_suffix (rev s)) as (pre & E & Hpre).
  exists (rev pre). split.
  - rewrite <- rev_app_distr, <- E. symmetry. apply rev_involutive.
  - now rewrite forallb_rev.
Qed.

Lemma lstrip_head (s : str) :
  match lstrip s with
  | [] => True
  | c :: _ => isspace c = false
  end.
Proof.
  induction s as [|c s IH]; [exact I|].
  simpl. destruct (isspace c) eqn:E; [exact IH|exact E].
Qed.

(** [strip] is idempotent. *)
Lemma strip_idempotent (s : str) : strip (strip s) = strip s.
Proof.
  unfold strip.
  assert (H : lstrip (rstrip (lstrip s)) = rstrip (lstrip s)).
  { pose proof (lstrip_head s) as Hh.
    destruct (rstrip_prefix (lstrip s)) as (tail & E & _).
    destruct (rstrip (lstrip s)) as [|c r] eqn:Er; [reflexivity|].
    rewrite E in Hh. cbn [app] in Hh. now apply lstrip_nonspace. }
  rewrite H. unfold rstrip at 1 2. rewrite rev_involutive, lstrip_idempotent.
  reflexivity.
Qed.

Lemma strip_sublist (c : N) (s : str) : In c (strip s) -> In c s.
Proof.
  intros H. unfold strip in H.
  destruct (rstrip_prefix (lstrip s)) as (tail & E & _).
  destruct (lstrip_suffix s) as (pre & E' & _).
  rewrite E', E. apply in_or_app. right. apply in_or_app. now left.
Qed.

Lemma absent_char_contains (c : N) (p s : str) :
  ~ In c s -> contains (c :: p) s = false.
Proof.
  induction s as [|x s IH]; intros H; [reflexivity|].
  cbn [contains]. rewrite IH by (intros Hin; apply H; now right).
  rewrite orb_false_r. unfold startswith.
  rewrite strip_prefix_head; [reflexivity|].
  intros ->. apply H. now left.
Qed.

(** X11.  An answer without any backtick reaches [json.loads] with its
    surrounding whitespace removed and nothing else changed. *)
Theorem json_text_without_fence (text : str) :
  contains [BACKTICK] text = false ->
  json_text text = strip text.
Proof.
  intros H. apply contains_char_absent in H.
  assert (Hs : ~ In BACKTICK (strip text)).
  { intros Hin. apply H, strip_sublist, Hin. }
  unfold json_text.
  rewrite (replace_absent FENCE_JSON [] (strip text))
    by (discriminate || exact (absent_char_contains BACKTICK _ _ Hs)).
  rewrite (replace_absent FENCE [] (strip text))
    by (discriminate || exact (absent_char_contains BACKTICK _ _ Hs)).
  apply strip_idempotent.
Qed.

End JournalProperties.

(* ===================================================================== *)
(** * Further properties of the frequency tables *)
(* ===================================================================== *)

Section TableProperties.

Variable sort_values : Table -> Table.
Hypothesis sort_values_perm : forall t, Permutation t (sort_values t).
Hypothesis sort_values_sorted : forall t, Sorted count_ge (sort_values t).

Lemma occurrences_absent (l : str) (labels : list str) :
  ~ In l labels -> occurrences l labels = 0.
Proof.
  unfold occurrences. induction labels as [|k labels IH]; intros H;
    [reflexivity|].
  simpl. destruct (eqb l k) eqn:E.
  - apply eqb_eq in E. subst. exfalso. apply H. now left.
  - apply IH. intros Hin. apply H. now right.
Qed.

Lemma occurrences_present (l : str) (labels : list str) :
  In l labels -> 1 <= occurrences l labels.
Proof.
  unfold occurrences. induction labels as [|k labels IH]; intros H;
    [destruct H|].
  simpl. destruct (eqb l k) eqn:E; [simpl; lia|].
  apply IH. destruct H as [->|H]; [|exact H].
  rewrite eqb_refl in E. discriminate.
Qed.

(** X12.  The label shown as most frequent (the first row of the sorted
    table) is one of the labels, and no label occurs more often. *)
Theorem most_frequent_is_maximal (labels : list str) :
  labels <> [] ->
  In (first_label (frequency_table sort_values labels)) labels /\
  forall l,
    occurrences l labels <=
    occurrences (first_label (frequency_table sort_values labels)) labels.
Proof.
  intros Hne.
  destruct (frequency_table_spec sort_values sort_values_perm
              sort_values_sorted labels) as (_ & Hin & Hs).
  destruct (frequency_table sort_values labels) as [|[l0 n0] rest] eqn:E.
  - destruct labels as [|k labels]; [congruence|].
    exfalso. apply (proj2 (Hin k (occurrences k (k :: labels)))).
    split; [now left|reflexivity].
  - cbn [first_label].
    destruct (proj1 (Hin l0 n0) (or_introl eq_refl)) as [H0 Hn0].
    split; [exact H0|]. intros l.
    destruct (in_dec (list_eq_dec N.eq_dec) l labels) as [Hl|Hl].
    + pose proof (proj2 (Hin l (occurrences l labels)) (conj Hl eq_refl)) as Hr.
      destruct Hr as [Hr|Hr]; [inversion Hr; subst; lia|].
      apply StronglySorted_inv in Hs as [_ Hall].
      rewrite Forall_forall in Hall. specialize (Hall _ Hr).
      unfold count_ge in Hall. simpl in Hall. lia.
    + rewrite (occurrences_absent l labels Hl). lia.
Qed.

Lemma counter_add_total (k : str) (c : Table) :
  table_total (counter_add k c) = S (table_total c).
Proof.
  unfold table_total. induction c as [|[k' n] c IH]; [reflexivity|].
  simpl. destruct (eqb k' k); simpl; [lia|]. rewrite IH. lia.
Qed.

Lemma fold_counter_total (labels : list str) (c : Table) :
  table_total (fold_left (fun c k => counter_add k c) labels c) =
  table_total c + length labels.
Proof.
  revert c; induction labels as [|k labels IH]; intros c; simpl; [lia|].
  rewrite IH, counter_add_total. lia.
Qed.

Lemma table_total_perm (a b : Table) :
  Permutation a b -> table_total a = table_total b.
Proof.
  unfold table_total.
  induction 1; simpl; try lia.
Qed.

(** X13.  The counts of a frequency table add up to the number of labels
    it was built from, and every row counts at least one. *)
Theorem table_counts_every_label (labels : list str) :
  table_total (frequency_table sort_values labels) = length labels /\
  forall l n, In (l, n) (frequency_table sort_values labels) -> 1 <= n.
Proof.
  split.
  - unfold frequency_table.
    rewrite <- (table_total_perm _ _ (sort_values_perm (Counter labels))).
    unfold Counter. now rewrite fold_counter_total.
  - intros l n Hin. unfold frequency_table in Hin.
    apply (Permutation_in _
             (Permutation_sym (sort_values_perm (Counter labels)))) in Hin.
    apply (proj2 (Counter_spec labels)) in Hin as [Hl ->].
    apply occurrences_present, Hl.
Qed.

End TableProperties.

(* ===================================================================== *)
(** * Properties of the journal history *)
(* ===================================================================== *)

Section HistoryProperties.

Variable reformat_date : str -> option str.

Lemma all_some_map {A B : Type} (f : A -> option B) (l : list A) (r : list B) :
  all_some (map f l) = Some r -> Forall2 (fun a b => f a = Some b) l r.
Proof.
  revert r; induction l as [|a l IH]; intros r H; simpl in H.
  - inversion H. constructor.
  - destruct (f a) as [b|] eqn:E; [|discriminate].
    destruct (all_some (map f l)) as [r'|]; [|discriminate].
    inversion H; subst. constructor; [exact E|apply IH; reflexivity].
Qed.

Lemma all_some_map_total {A B : Type} (f : A -> option B) (l : list A) :
  (forall a, In a l -> f a <> None) ->
  exists r, all_some (map f l) = Some r.
Proof.
  induction l as [|a l IH]; intros H; [now exists []|].
  simpl. destruct (f a) as [b|] eqn:E.
  - destruct IH as [r Hr]; [intros x Hx; apply H; now right|].
    rewrite Hr. now eexists.
  - exfalso. apply (H a); [now left|exact E].
Qed.

Lemma Forall2_map_eq {A B C : Type} (R : A -> B -> Prop) (g : A -> C)
    (h : B -> C) (l : list A) (r : list B) :
  (forall a b, R a b -> h b = g a) ->
  Forall2 R l r -> map h r = map g l.
Proof.
  intros H F. induction F as [|a b l r Hab F IH]; [reflexivity|].
  simpl. now rewrite (H a b Hab), IH.
Qed.

Lemma Forall2_In_l {A B : Type} (R : A -> B -> Prop) (l : list A) (r : list B)
    (a : A) :
  Forall2 R l r -> In a l -> exists b, In b r /\ R a b.
Proof.
  intros F. induction F as [|x y l r Hxy F IH]; intros Ha; [destruct Ha|].
  destruct Ha as [->|Ha]; [exists y; split; [now left|exact Hxy]|].
  destruct (IH Ha) as (b & Hb & Hr). exists b. split; [now right|exact Hr].
Qed.

Lemma Forall2_In_r {A B : Type} (R : A -> B -> Prop) (l : list A) (r : list B)
    (b : B) :
  Forall2 R l r -> In b r -> exists a, In a l /\ R a b.
Proof.
  intros F. induction F as [|x y l r Hxy F IH]; intros Hb; [destruct Hb|].
  destruct Hb as [->|Hb]; [exists x; split; [now left|exact Hxy]|].
  destruct (IH Hb) as (a & Ha & Hr). exists a. split; [now right|exact Hr].
Qed.

Lemma day_view_Some (d : str) (es : list JournalEntry) (v : DayView) :
  day_view reformat_date d es = Some v ->
  exists evs blocks,
    all_some (map entry_view (rev es)) = Some evs /\
    all_some (map (export_block (display_date_of reformat_date d)) (rev es))
      = Some blocks /\
    dv_date v = d /\
    dv_entries v = evs /\
    dv_data v = export_header (display_date_of reformat_date d) ++ concat blocks /\
    dv_file_name v = lit "mind_ease_journal_all_" ++ d ++ lit ".txt".
Proof.
  unfold day_view.
  destruct (all_some (map entry_view (rev es))) as [evs|]; [|discriminate].
  destruct (all_some (map (export_block _) (rev es))) as [blocks|];
    [|discriminate].
  intros H. exists evs, blocks. injection H as <-.
  repeat split; reflexivity.
Qed.

Lemma day_view_date (d : str) (es : list JournalEntry) (v : DayView) :
  day_view reformat_date d es = Some v -> dv_date v = d.
Proof.
  intros H. destruct (day_view_Some d es v H) as (? & ? & _ & _ & E & _).
  exact E.
Qed.

Lemma journal_history_dates (j : Journal) (views : list DayView) :
  journal_history reformat_date j = Some views ->
  map dv_date views = sorted_reverse (map fst j).
Proof.
  intros H. unfold journal_history in H. apply all_some_map in H.
  rewrite <- (map_id (sorted_reverse (map fst j))).
  apply (Forall2_map_eq _ _ _ _ _ (fun d v Hv => day_view_date d _ v Hv) H).
Qed.

Lemma str_leb_trans (a b c : str) :
  str_leb a b = true -> str_leb b c = true -> str_leb a c = true.
Proof.
  revert b c; induction a as [|x a IH]; intros [|y b] [|z c]; simpl;
    try reflexivity; try discriminate.
  destruct (N.compare_spec x y), (N.compare_spec y z), (N.compare_spec x z);
    subst; try reflexivity; try discriminate; try lia; intros; eauto.
Qed.

(** X16.  The history shows one expander per date of the journal, the
    dates in descending order. *)
Theorem history_dates_descending (j : Journal) (views : list DayView) :
  journal_history reformat_date j = Some views ->
  Permutation (map fst j) (map dv_date views) /\
  StronglySorted (fun a b => str_leb b a = true) (map dv_date views) /\
  forall v, In v views ->
    dv_file_name v = lit "mind_ease_journal_all_" ++ dv_date v ++ lit ".txt".
Proof.
  intros H. pose proof (journal_history_dates j views H) as E.
  split; [|split].
  - rewrite E. apply DateSort.Permuted_sort.
  - rewrite E. apply Sorted_StronglySorted.
    + intros a b c Hab Hbc. exact (str_leb_trans c b a Hbc Hab).
    + apply DateSort.Sorted_sort.
  - intros v Hv. unfold journal_history in H. apply all_some_map in H.
    destruct (Forall2_In_r _ _ _ v H Hv) as (d & _ & Hd).
    destruct (day_view_Some d _ v Hd) as (? & ? & _ & _ & Ed & _ & _ & Ef).
    now rewrite Ef, Ed.
Qed.

Lemma entry_view_text (e : JournalEntry) (ev : EntryView) :
  entry_view e = Some ev -> ev_text ev = je_content e.
Proof.
  unfold entry_view.
  destruct (entry_time _), (py_str (je_sentiment e)), (py_str (je_summary e));
    try discriminate.
  intros H; inversion H; reflexivity.
Qed.

Lemma export_block_content (display : str) (e : JournalEntry) (block : str) :
  export_block display e = Some block ->
  exists before after,
    block = before ++ lit "Content: " ++ je_content e ++ LF ++ after.
Proof.
  unfold export_block.
  destruct (entry_time _) as [t|], (py_str (je_sentiment e)) as [sn|],
    (py_str (je_summary e)) as [sm|]; try discriminate.
  intros H; inversion H; subst.
  exists (lit "Date: " ++ display ++ LF ++ lit "Entry Time: " ++ t ++ LF
          ++ lit "Sentiment: " ++ sn ++ LF ++ lit "Summary: " ++ sm ++ LF),
         (EXPORT_RULE ++ LF).
  now rewrite <- !app_assoc.
Qed.

Lemma concat_In (blocks : list str) (block : str) :
  In block blocks ->
  exists before after, concat blocks = before ++ block ++ after.
Proof.
  intros H. apply in_split in H as (l1 & l2 & ->).
  exists (concat l1), (concat l2). rewrite concat_app. reflexivity.
Qed.

(** X17.  Inside the expander of a date the entries stand newest first
    (in reverse order of saving), each with its text; the data of the
    download button is the header followed by one block per entry, in the
    same order, and holds the line ["Content: ..."] of every entry of that
    date. *)
Theorem history_day_newest_first (j : Journal) (views : list DayView)
    (v : DayView) :
  journal_history reformat_date j = Some views ->
  In v views ->
  let entries := journal_get (dv_date v) j in
  map ev_text (dv_entries v) = rev (map je_content entries) /\
  (exists blocks,
     dv_data v =
       export_header (display_date_of reformat_date (dv_date v)) ++ concat blocks /\
     Forall2 (fun e b =>
                export_block (display_date_of reformat_date (dv_date v)) e = Some b)
             (rev entries) blocks) /\
  (forall e, In e entries ->
     exists before after,
       dv_data v = before ++ lit "Content: " ++ je_content e ++ LF ++ after).
Proof.
  intros H Hv. cbv zeta. unfold journal_history in H. apply all_some_map in H.
  destruct (Forall2_In_r _ _ _ v H Hv) as (d & _ & Hd).
  destruct (day_view_Some d _ v Hd)
    as (evs & blocks & E1 & E2 & Ed & Ee & Ex & _).
  rewrite Ed, Ee, Ex.
  apply all_some_map in E1. apply all_some_map in E2.
  split; [|split].
  - rewrite (Forall2_map_eq _ je_content ev_text _ _ entry_view_text E1).
    apply map_rev.
  - exists blocks. split; [reflexivity|exact E2].
  - intros e He. apply in_rev in He.
    destruct (Forall2_In_l _ _ _ e E2 He) as (block & Hb & Hblock).
    destruct (export_block_content _ e block Hblock) as (b1 & a1 & Eb).
    destruct (concat_In blocks _ Hb) as (b2 & a2 & Ec).
    exists (export_header (display_date_of reformat_date d) ++ b2 ++ b1),
           (a1 ++ a2).
    rewrite Ec, Eb, <- !app_assoc. reflexivity.
Qed.

(** ** Timestamps *)




(** ** When the history can be drawn *)

Lemma journal_get_drawable (d : str) (j : Journal) :
  all_drawable j = true -> forallb drawable (journal_get d j) = true.
Proof.
  induction j as [|[k es] j IH]; intros H; [reflexivity|].
  unfold all_drawable in H. cbn [forallb snd] in H.
  apply andb_true_iff in H as [H1 H2]. simpl.
  destruct (eqb k d); [exact H1|exact (IH H2)].
Qed.

Lemma day_view_total (d : str) (es : list JournalEntry) :
  forallb drawable es = true ->
  exists v, day_view reformat_date d es = Some v.
Proof.
  intros H. rewrite forallb_forall in H. unfold day_view.
  destruct (all_some_map_total entry_view (rev es)) as [evs ->].
  { intros e He. apply in_rev, H in He. unfold drawable in He.
    unfold entry_view.
    destruct (entry_time _), (py_str (je_sentiment e)), (py_str (je_summary e));
      discriminate. }
  destruct (all_some_map_total
              (export_block (display_date_of reformat_date d)) (rev es))
    as [blocks ->].
  { intros e He. apply in_rev, H in He. unfold drawable in He.
    unfold export_block.
    destruct (entry_time _), (py_str (je_sentiment e)), (py_str (je_summary e));
      discriminate. }
  now eexists.
Qed.

(** X19.  When every timestamp of the journal has a part after its first
    space and every summary and sentiment prints, the history is drawn,
    with one expander per date; an empty journal gives none. *)
Theorem history_is_drawn (j : Journal) :
  all_drawable j = true ->
  exists views,
    journal_history reformat_date j = Some views /\
    length views = length j.
Proof.
  intros H. unfold journal_history.
  destruct (all_some_map_total
              (fun d => day_view reformat_date d (journal_get d j))
              (sorted_reverse (map fst j))) as [views Hv].
  { intros d _. destruct (day_view_total d (journal_get d j)) as [v ->];
      [apply journal_get_drawable, H|discriminate]. }
  exists views. split; [exact Hv|].
  apply all_some_map in Hv. apply Forall2_length in Hv. rewrite <- Hv.
  unfold sorted_reverse.
  rewrite <- (Permutation_length (DateSort.Permuted_sort (map fst j))).
  apply length_map.
Qed.

End HistoryProperties.

(* ===================================================================== *)
(** * The further properties on concrete sessions *)
(* ===================================================================== *)

Lemma chat_object_after_turn_witness :
  chat (fst (fst (script_run ascii_lower FlatJson.loads
                    (llm_says (lit "[Emotion: Joy] Great to hear!"))
                    plain_input (ready_session, ready_world)))) = None /\
  chat (fst (fst (script_run ascii_lower FlatJson.loads llm_down
                    crisis_input (ready_session, ready_world)))) = Some chat0.
Proof.
  split.
  - apply (chat_object_after_turn ascii_lower FlatJson.loads
             (llm_says (lit "[Emotion: Joy] Great to hear!")) plain_input
             ready_session ready_world (lit "I passed my exam") eq_refl).
    discriminate.
  - apply (chat_object_after_turn ascii_lower FlatJson.loads llm_down
             crisis_input ready_session ready_world
             (lit "I want to End My Life") eq_refl).
    discriminate.
Defined.

Lemma tagged_answer_splits_witness :
  exists head,
    lit "[Emotion: Joy] Great] to hear!" =
      head ++ TAG_SEP ++ fst (parse_emotion_tag (lit "[Emotion: Joy] Great] to hear!")) /\
    contains TAG_SEP head = false /\
    snd (parse_emotion_tag (lit "[Emotion: Joy] Great] to hear!")) =
      replace [RBRACKET] [] (replace EMOTION_OPEN [] head) /\
    contains [RBRACKET]
      (snd (parse_emotion_tag (lit "[Emotion: Joy] Great] to hear!"))) = false.
Proof.
  exact (tagged_answer_splits (lit "[Emotion: Joy] Great] to hear!")
           eq_refl eq_refl).
Defined.

Lemma save_appends_entry_witness :
  let '(s', w', rerun) :=
    render_journal_tab FlatJson.loads (llm_says calm_answer)
      (lit " A quiet day. ") true a_clock (ready_session, ready_world) in
  (exists summary sentiment,
     journal_get (lit "2025-01-31") (journal_entries s') =
       [mkJournalEntry (lit "2025-01-31 09:30:00") (lit "A quiet day.")
          summary sentiment]) /\
  rerun = true.
Proof.
  pose proof (save_appends_entry FlatJson.loads (llm_says calm_answer)
                (lit " A quiet day. ") a_clock ready_session ready_world
                eq_refl) as H.
  destruct (render_journal_tab _ _ _ _ _ _) as [[s' w'] rerun].
  destruct H as (H1 & _ & _ & _ & _ & _ & H7). split; [exact H1|exact H7].
Defined.

Lemma entry_without_sentiment_not_counted_witness :
  journal_sentiments
    (journal_entries
       (fst (fst (render_journal_tab FlatJson.loads llm_down (lit "A long day.")
                    true a_clock (mixed_session, ready_world)))))
  = journal_sentiments (journal_entries mixed_session).
Proof.
  exact (proj2
    (entry_without_sentiment_not_counted FlatJson.loads llm_down
       (lit "A long day.") a_clock mixed_session ready_world eq_refl eq_refl)).
Defined.

Lemma json_text_without_fence_witness :
  json_text (LF ++ FlatJson.jlit "{'summary':'...','sentiment':'Calm'}" ++ LF)
  = FlatJson.jlit "{'summary':'...','sentiment':'Calm'}".
Proof.
  exact (json_text_without_fence
           (LF ++ FlatJson.jlit "{'summary':'...','sentiment':'Calm'}" ++ LF)
           eq_refl).
Defined.

Lemma most_frequent_is_maximal_witness :
  In (first_label (frequency_table sort_by_count [SADNESS; JOY; JOY]))
     [SADNESS; JOY; JOY] /\
  forall l,
    occurrences l [SADNESS; JOY; JOY] <=
    occurrences (first_label (frequency_table sort_by_count [SADNESS; JOY; JOY]))
      [SADNESS; JOY; JOY].
Proof.
  apply (most_frequent_is_maximal sort_by_count sort_by_count_perm
           sort_by_count_sorted [SADNESS; JOY; JOY]).
  discriminate.
Defined.

Lemma table_counts_every_label_witness :
  table_total (frequency_table sort_by_count [SADNESS; JOY; JOY]) = 3.
Proof.
  exact (proj1 (table_counts_every_label sort_by_count sort_by_count_perm
                  [SADNESS; JOY; JOY])).
Defined.

Lemma uninformative_turn_not_counted_witness :
  chat_emotions
    (messages (fst (fst (render_chat_tab ascii_lower
                           (llm_says (lit "That sounds hard."))
                           (Some (lit "rough day"))
                           (set_chat (Some chat0) mixed_session, ready_world)))))
  = Some [JOY; JOY; SADNESS].
Proof.
  refine (uninformative_turn_not_counted ascii_lower
            (llm_says (lit "That sounds hard.")) (lit "rough day")
            (set_chat (Some chat0) mixed_session) ready_world chat0 _ eq_refl
            (or_intror (conj eq_refl
               (or_intror (or_intror
                  (ex_intro _ (lit "That sounds hard.") (conj eq_refl eq_refl))))))).
  discriminate.
Defined.

Lemma history_shows_turn_witness :
  let '(s', w', _) :=
    render_chat_tab ascii_lower (llm_says (lit "[Emotion: Joy] Great to hear!"))
      (Some (lit "I passed my exam")) (ready_session, ready_world) in
  screen w' = history_bubbles s'.
Proof.
  assert (H : lit "I passed my exam" <> []) by discriminate.
  exact (history_shows_turn ascii_lower
           (llm_says (lit "[Emotion: Joy] Great to hear!"))
           (lit "I passed my exam") ready_session ready_world H).
Defined.

Lemma history_dates_descending_witness :
  Permutation (map fst two_day_journal) (map dv_date two_day_views) /\
  StronglySorted (fun a b => str_leb b a = true) (map dv_date two_day_views) /\
  forall v, In v two_day_views ->
    dv_file_name v = lit "mind_ease_journal_all_" ++ dv_date v ++ lit ".txt".
Proof.
  exact (history_dates_descending reformat_iso_date two_day_journal
           two_day_views eq_refl).
Defined.

Lemma history_day_newest_first_witness :
  dv_date latest_view = lit "2025-01-31" /\
  map ev_text (dv_entries latest_view) =
    [lit "Went for a walk."; lit "A quiet day."].
Proof.
  split; [reflexivity|].
  exact (proj1 (history_day_newest_first reformat_iso_date two_day_journal
                  two_day_views latest_view eq_refl (or_introl eq_refl))).
Defined.


Lemma history_is_drawn_witness :
  exists views,
    journal_history reformat_iso_date two_day_journal = Some views /\
    length views = 2.
Proof.
  exact (history_is_drawn reformat_iso_date two_day_journal eq_refl).
Defined.

(* ===================================================================== *)
(** * Messages per run, and the persona *)
(* ===================================================================== *)

Section RunProperties.

Variable lower : str -> str.
Variable json_loads : str -> option json.
Variable llm : list ApiCall -> ApiCall -> Outcome.

(** X20.  A run that receives a chat message adds that message and one
    assistant message with an emotion to the list; a run without chat
    message (an idle rerun, a click on [Save Entry]) adds nothing. *)
Theorem run_adds_one_turn (i : Input) (s : SessionState) (w : World) :
  let msgs := messages (fst (fst (script_run lower json_loads llm i (s, w)))) in
  match chat_input i with
  | Some (a :: p) =>
      exists answer emotion,
        msgs = messages s ++ [mkMessage user (a :: p) None;
                              mkMessage assistant answer (Some emotion)]
  | _ => msgs = messages s
  end.
Proof.
  cbv zeta. unfold script_run.
  pose proof (script_prologue_messages (clock i) s w) as Hm.
  destruct (script_prologue (clock i) (s, w)) as [s0 w0]. cbn [fst] in Hm.
  rewrite <- Hm.
  destruct (chat_input i) as [[|a p]|].
  - rewrite (render_chat_tab_idle lower llm (@Some str []) s0 w0) by now right.
    cbv iota beta. apply render_journal_tab_messages.
  - destruct (check_crisis lower (a :: p)) eqn:Ec.
    + rewrite render_chat_tab_crisis by (congruence || assumption).
      eexists _, _. reflexivity.
    + destruct (chat s0) as [c0|] eqn:Ech.
      * rewrite (render_chat_tab_answer lower llm (a :: p) s0 w0 c0)
          by (congruence || assumption).
        eexists _, _. reflexivity.
      * rewrite render_chat_tab_no_chat by (congruence || assumption).
        eexists _, _. reflexivity.
  - rewrite (render_chat_tab_idle lower llm None s0 w0) by now left.
    cbv iota beta. apply render_journal_tab_messages.
Qed.

End RunProperties.

Lemma persona_get_missing (persona : str) (m : list (str * str)) (default : str) :
  forallb (fun kv => negb (eqb (fst kv) persona)) m = true ->
  persona_get persona m default = default.
Proof.
  induction m as [|[k v] m IH]; [reflexivity|].
  cbn [forallb fst]. intros H. apply andb_true_iff in H as [Hk Hm].
  cbn [persona_get]. destruct (eqb k persona); [discriminate|exact (IH Hm)].
Qed.

(** X21.  A persona that is no key of [PERSONA_MAPPING] gets the system
    instruction of ['Gently Supportive']. *)
Theorem unknown_persona_is_gentle (persona : str) :
  forallb (fun kv => negb (eqb (fst kv) persona)) PERSONA_MAPPING = true ->
  dynamic_instruction persona = dynamic_instruction GENTLY_SUPPORTIVE.
Proof.
  intros H. unfold dynamic_instruction.
  rewrite (persona_get_missing persona PERSONA_MAPPING _ H). reflexivity.
Qed.

Lemma unknown_persona_is_gentle_witness :
  dynamic_instruction (lit "Stern Critic") = dynamic_instruction GENTLY_SUPPORTIVE.
Proof.
  exact (unknown_persona_is_gentle (lit "Stern Critic") eq_refl).
Defined.
